(** * A fixed-capacity order book: sequential model of [order_book.hpp]

    The C++ class [hft::LockFreeOrderBook<MaxLevels>] keeps two flat arrays of
    [PriceLevel] slots, one per side.  This development embeds its operations
    as executed by a single thread: a compare-exchange on a flag that was just
    loaded as [false] then always succeeds.

    - [double] is the kernel's binary64 [float]; the comparisons [==], [<],
      [>] are [PrimFloat.eqb] and [PrimFloat.ltb], so NaN and signed zeros
      behave as in the source.
    - [int64_t] and [uint64_t] payloads are stored and copied, never computed
      with, so they are carried as [Z].
    - [std::array<PriceLevel, MaxLevels>] is a [list PriceLevel] of length
      [MaxLevels], scanned from index 0 upward. *)

From Stdlib Require Import ZArith Floats.
From stdpp Require Import base tactics option list.

Local Open Scope Z_scope.

(** ** Ranking binary64 values *)

(** A non-NaN value is ranked by a triple compared lexicographically: class
    (negative infinity, negative finite, zero, positive finite, positive
    infinity), then exponent, then mantissa, the last two negated for
    negative numbers. *)
Definition rank (x : spec_float) : Z * Z * Z :=
  match x with
  | S754_zero _ => (0, 0, 0)
  | S754_infinity false => (2, 0, 0)
  | S754_infinity true => (-2, 0, 0)
  | S754_nan => (0, 0, 0)
  | S754_finite false m e => (1, e, Zpos m)
  | S754_finite true m e => (-1, - e, Zneg m)
  end.

Definition lex3 (a b : Z * Z * Z) : comparison :=
  match a, b with
  | (a1, a2, a3), (b1, b2, b3) =>
    match a1 ?= b1 with
    | Eq => match a2 ?= b2 with
            | Eq => a3 ?= b3
            | c => c
            end
    | c => c
    end
  end.

Definition is_nan_sf (x : spec_float) : bool :=
  match x with S754_nan => true | _ => false end.

Definition not_nan (x : float) : Prop := is_nan_sf (Prim2SF x) = false.

(** ** Data model *)

(** [struct PriceLevel]; the constructor [PriceLevel()] builds
    [PriceLevel_default]. *)
Record PriceLevel : Type := mkPriceLevel {
  price : float;
  size : Z;
  timestamp_ns : Z;
  valid : bool
}.

Definition PriceLevel_default : PriceLevel := mkPriceLevel 0%float 0 0 false.

(** [level.valid.store(v, ...)] *)
Definition store_valid (v : bool) (level : PriceLevel) : PriceLevel :=
  mkPriceLevel (price level) (size level) (timestamp_ns level) v.

(** [valid.compare_exchange_strong(expected, desired, ...)] on a flag holding
    [cur]: the outcome and the flag's new content. *)
Definition compare_exchange_strong (cur expected desired : bool) : bool * bool :=
  if Bool.eqb cur expected then (true, desired) else (false, cur).

(** The private members [bids_] and [asks_]. *)
Record LockFreeOrderBook : Type := mkBook {
  bids_ : list PriceLevel;
  asks_ : list PriceLevel
}.

(** The constructor [LockFreeOrderBook()]: default slots, every flag stored
    [false]. *)
Definition new_LockFreeOrderBook (MaxLevels : nat) : LockFreeOrderBook :=
  mkBook (store_valid false <$> replicate MaxLevels PriceLevel_default)
         (store_valid false <$> replicate MaxLevels PriceLevel_default).

(** [std::numeric_limits<double>::max()] *)
Definition DBL_MAX : float := 0x1.fffffffffffffp+1023%float.

Implicit Types (level : PriceLevel) (levels : list PriceLevel).
Implicit Types (p q : float) (s t : Z) (us : list (float * Z * Z)).

(** ** [update_level] *)

(** First [if] of the loop body: the slot is empty and the exchange of its
    flag from [false] to [true] succeeds; the payload is then written. *)
Definition try_acquire (level : PriceLevel) (p : float) (s t : Z)
  : option PriceLevel :=
  if Bool.eqb (valid level) false then
    let '(ok, v) := compare_exchange_strong (valid level) false true in
    if ok then Some (mkPriceLevel p s t v) else None
  else None.

(** Second [if] of the loop body: the slot's price compares equal to the
    incoming one; size 0 clears the flag, any other size overwrites size and
    timestamp. *)
Definition update_existing (level : PriceLevel) (p : float) (s t : Z)
  : option PriceLevel :=
  if (price level =? p)%float then
    Some (if s =? 0 then store_valid false level
          else mkPriceLevel (price level) s t (valid level))
  else None.

(** The scan over the slots; the result is the returned flag and the array
    after the call. *)
Fixpoint update_level (levels : list PriceLevel) (p : float) (s t : Z)
  : bool * list PriceLevel :=
  match levels with
  | [] => (false, [])
  | level :: rest =>
    match try_acquire level p s t with
    | Some level' => (true, level' :: rest)
    | None =>
      match update_existing level p s t with
      | Some level' => (true, level' :: rest)
      | None =>
        let '(r, rest') := update_level rest p s t in (r, level :: rest')
      end
    end
  end.

Definition update_bid (b : LockFreeOrderBook) (p : float) (s t : Z)
  : bool * LockFreeOrderBook :=
  let '(r, levels') := update_level (bids_ b) p s t in
  (r, mkBook levels' (asks_ b)).

Definition update_ask (b : LockFreeOrderBook) (p : float) (s t : Z)
  : bool * LockFreeOrderBook :=
  let '(r, levels') := update_level (asks_ b) p s t in
  (r, mkBook (bids_ b) levels').

(** ** Queries *)

(** The loop of [get_best_bid], carrying [best_price] and [best_level]; the
    pointer is represented by the slot it points to, which the scan does not
    modify. [level.price > best_price] is [best_price < level.price]. *)
Fixpoint best_bid_scan (levels : list PriceLevel) (best_price : float)
    (best_level : option PriceLevel) : option PriceLevel :=
  match levels with
  | [] => best_level
  | level :: rest =>
    if valid level && (best_price <? price level)%float
    then best_bid_scan rest (price level) (Some level)
    else best_bid_scan rest best_price best_level
  end.

Definition get_best_bid (b : LockFreeOrderBook) : option PriceLevel :=
  best_bid_scan (bids_ b) 0%float None.

Fixpoint best_ask_scan (levels : list PriceLevel) (best_price : float)
    (best_level : option PriceLevel) : option PriceLevel :=
  match levels with
  | [] => best_level
  | level :: rest =>
    if valid level && (price level <? best_price)%float
    then best_ask_scan rest (price level) (Some level)
    else best_ask_scan rest best_price best_level
  end.

Definition get_best_ask (b : LockFreeOrderBook) : option PriceLevel :=
  best_ask_scan (asks_ b) DBL_MAX None.

Definition get_mid_price (b : LockFreeOrderBook) : option float :=
  match get_best_bid b, get_best_ask b with
  | Some bid, Some ask => Some ((price bid + price ask) / 2)%float
  | _, _ => None
  end.

Definition get_spread (b : LockFreeOrderBook) : option float :=
  match get_best_bid b, get_best_ask b with
  | Some bid, Some ask => Some (price ask - price bid)%float
  | _, _ => None
  end.

(** ** Sequences of calls *)

Inductive op : Type :=
  | UpdateBid (p : float) (s t : Z)
  | UpdateAsk (p : float) (s t : Z).

Definition step (b : LockFreeOrderBook) (o : op) : bool * LockFreeOrderBook :=
  match o with
  | UpdateBid p s t => update_bid b p s t
  | UpdateAsk p s t => update_ask b p s t
  end.

(** The book after a sequence of updates, and the flags they returned. *)
Fixpoint run (b : LockFreeOrderBook) (os : list op) : LockFreeOrderBook :=
  match os with
  | [] => b
  | o :: os' => run (step b o).2 os'
  end.

Fixpoint results (b : LockFreeOrderBook) (os : list op) : list bool :=
  match os with
  | [] => []
  | o :: os' => (step b o).1 :: results (step b o).2 os'
  end.

(** Updates of one side given as (price, size, timestamp) triples. *)
Definition bid_ops (us : list (float * Z * Z)) : list op :=
  (fun u => UpdateBid u.1.1 u.1.2 u.2) <$> us.

Definition ask_ops (us : list (float * Z * Z)) : list op :=
  (fun u => UpdateAsk u.1.1 u.1.2 u.2) <$> us.

(** [touches p o]: the call [o] is a bid update whose price compares equal
    to [p]. *)
Definition touches (p : float) (o : op) : bool :=
  match o with
  | UpdateBid q _ _ => (q =? p)%float
  | UpdateAsk _ _ _ => false
  end.

(** Prices that are pairwise different under [==]. *)
Fixpoint distinct_prices (ps : list float) : bool :=
  match ps with
  | [] => true
  | p :: ps' => forallb (fun q => negb (p =? q)%float) ps' && distinct_prices ps'
  end.

(** ** Predicates on a side *)

(** The three ways the loop body treats a slot. *)
Variant slot_case level p : Type :=
  | slot_empty : valid level = false -> slot_case level p
  | slot_match : valid level = true -> (price level =? p)%float = true ->
                 slot_case level p
  | slot_skip : valid level = true -> (price level =? p)%float = false ->
                slot_case level p.

(** A side is full and does not know [p]: every slot is valid and none has a
    price comparing equal to [p]. *)
Definition full_and_novel levels p : Prop :=
  Forall (fun level => valid level = true /\ (price level =? p)%float = false)
         levels.

(** [finds_level levels p]: the scan reaches a valid slot whose price equals
    [p] before it meets an empty slot. *)
Fixpoint finds_level levels p : bool :=
  match levels with
  | [] => false
  | level :: rest =>
    if negb (valid level) then false
    else if (price level =? p)%float then true
    else finds_level rest p
  end.

Definition sizes_positive levels : Prop :=
  Forall (fun level => valid level = true -> 0 < size level) levels.

(** Two slots that differ at most in the stored size, which is then [s] in
    the first and [s'] in the second. *)
Definition same_but_size s s' level level' : Prop :=
  price level = price level' /\ timestamp_ns level = timestamp_ns level' /\
  valid level = valid level' /\
  (size level = size level' \/ (size level = s /\ size level' = s')).

(** ** One scan for both sides *)

(** Both scans are one loop over a comparison [beats best x] telling whether
    a slot priced [x] replaces the running extremum [best]. *)
Fixpoint best_scan (beats : float -> float -> bool)
    (levels : list PriceLevel) (best_price : float)
    (best_level : option PriceLevel) : option PriceLevel :=
  match levels with
  | [] => best_level
  | level :: rest =>
    if valid level && beats best_price (price level)
    then best_scan beats rest (price level) (Some level)
    else best_scan beats rest best_price best_level
  end.

(** No valid slot of [levels] beats the price [x]. *)
Definition unbeaten (beats : float -> float -> bool) (x : float)
    (levels : list PriceLevel) : Prop :=
  Forall (fun level => valid level = true -> beats x (price level) = false) levels.

Definition bid_beats (best x : float) : bool := (best <? x)%float.
Definition ask_beats (best x : float) : bool := (x <? best)%float.

(** ** Filling a side, and admissible calls *)

(** [p] compares equal to none, resp. to one, of the prices of [us]. *)
Definition novel_price (p : float) (us : list (float * Z * Z)) : bool :=
  forallb (fun u => negb (u.1.1 =? p)%float) us.

Definition repeat_price (p : float) (us : list (float * Z * Z)) : bool :=
  existsb (fun u => (u.1.1 =? p)%float) us.

(** The slot an accepted novel update writes. *)
Definition written (u : float * Z * Z) : PriceLevel :=
  mkPriceLevel u.1.1 u.1.2 u.2 true.

Definition empty_slots (k : nat) : list PriceLevel :=
  store_valid false <$> replicate k PriceLevel_default.

(** The levels after a list of updates, and the flags returned. *)
Fixpoint update_all levels us : list bool * list PriceLevel :=
  match us with
  | [] => ([], levels)
  | u :: us' =>
    let r := update_level levels u.1.1 u.1.2 u.2 in
    ((r.1 :: (update_all r.2 us').1), (update_all r.2 us').2)
  end.

Definition holds_price (p : float) (levels : list PriceLevel) : Prop :=
  Exists (fun level => valid level = true /\ (price level =? p)%float = true)
         levels.

(** A call that publishes a positive size, or a size-0 call whose scan finds
    the level it withdraws. *)
Definition publishes_or_withdraws (b : LockFreeOrderBook) (o : op) : bool :=
  match o with
  | UpdateBid p s t => (0 <? s) || ((s =? 0) && finds_level (bids_ b) p)
  | UpdateAsk p s t => (0 <? s) || ((s =? 0) && finds_level (asks_ b) p)
  end.

Fixpoint well_sized (b : LockFreeOrderBook) (os : list op) : bool :=
  match os with
  | [] => true
  | o :: os' => publishes_or_withdraws b o && well_sized (step b o).2 os'
  end.

(** ** Books used as examples *)

Definition usage_book : LockFreeOrderBook :=
  run (new_LockFreeOrderBook 4)
      [UpdateBid 100 1000 1; UpdateBid 99.5 500 2;
       UpdateAsk 100.25 800 3; UpdateAsk 100.5 1200 4].

(** A book with one slot per side, both occupied. *)
Definition full_book_1 : LockFreeOrderBook :=
  run (new_LockFreeOrderBook 1) [UpdateBid 100 10 1; UpdateAsk 101 10 2].

(** A one-slot book whose only bid is priced [0.0] and whose only ask is
    priced [DBL_MAX]. *)
Definition sentinel_book : LockFreeOrderBook :=
  run (new_LockFreeOrderBook 1) [UpdateBid 0 10 1; UpdateAsk DBL_MAX 10 2].

(** The crossed book of the specification: best bid 101, best ask 100. *)
Definition crossed_book : LockFreeOrderBook :=
  run (new_LockFreeOrderBook 2) [UpdateBid 101 10 1; UpdateAsk 100 10 2].

(** The book after [us] were published on the bid side of a fresh book with
    as many slots as there are updates. *)
Definition filled_bids (us : list (float * Z * Z)) : LockFreeOrderBook :=
  run (new_LockFreeOrderBook (length us)) (bid_ops us).

Definition filled_asks (us : list (float * Z * Z)) : LockFreeOrderBook :=
  run (new_LockFreeOrderBook (length us)) (ask_ops us).

Definition three_levels : list (float * Z * Z) :=
  [(100%float, 10, 1); (99.5%float, 5, 2); (98%float, 7, 3)].

(** ** Shape of a side *)

(** [touches_ask p o]: the call [o] is an ask update whose price compares
    equal to [p]. *)
Definition touches_ask (p : float) (o : op) : bool :=
  match o with
  | UpdateAsk q _ _ => (q =? p)%float
  | UpdateBid _ _ _ => false
  end.

Definition op_size (o : op) : Z :=
  match o with UpdateBid _ s _ | UpdateAsk _ s _ => s end.

Definition is_bid (o : op) : bool :=
  match o with UpdateBid _ _ _ => true | UpdateAsk _ _ _ => false end.

(** The valid slots come first: no empty slot precedes a valid one. *)
Fixpoint hole_free levels : bool :=
  match levels with
  | [] => true
  | level :: rest =>
    if valid level then hole_free rest
    else forallb (fun l => negb (valid l)) rest
  end.

(** No two valid slots hold prices that compare equal. *)
Definition duplicate_free levels : bool :=
  distinct_prices (price <$> List.filter valid levels).

Definition tidy levels : bool := hole_free levels && duplicate_free levels.

(** The same two properties by index: a valid slot has only valid slots
    before it, and two different valid slots never hold equal prices. *)
Definition valid_prefix levels : Prop :=
  forall (i j : nat) li lj, (i < j)%nat ->
    levels !! i = Some li -> levels !! j = Some lj ->
    valid lj = true -> valid li = true.

Definition one_slot_per_price levels : Prop :=
  forall (i j : nat) li lj, i <> j ->
    levels !! i = Some li -> levels !! j = Some lj ->
    valid li = true -> valid lj = true ->
    (price li =? price lj)%float = false.

(** * Lemmas *)

(** ** Order facts about binary64 comparison *)

Module FloatOrder.

Lemma SFcompare_rank x y :
  SFcompare x y =
  if is_nan_sf x || is_nan_sf y then None else Some (lex3 (rank x) (rank y)).
Proof.
  destruct x as [[]|[]| |[] m1 e1], y as [[]|[]| |[] m2 e2]; simpl; try reflexivity.
  rewrite Z.compare_opp, (Z.compare_antisym e1 e2).
  destruct (e1 ?= e2); reflexivity.
Qed.

Lemma lex3_lt a b :
  lex3 a b = Lt <->
  a.1.1 < b.1.1 \/ (a.1.1 = b.1.1 /\ (a.1.2 < b.1.2 \/ (a.1.2 = b.1.2 /\ a.2 < b.2))).
Proof.
  destruct a as [[a1 a2] a3], b as [[b1 b2] b3]; simpl.
  destruct (Z.compare_spec a1 b1), (Z.compare_spec a2 b2), (Z.compare_spec a3 b3);
    split; intros; try discriminate; try reflexivity; lia.
Qed.

Lemma lex3_eq a b : lex3 a b = Eq <-> a = b.
Proof.
  destruct a as [[a1 a2] a3], b as [[b1 b2] b3]; simpl.
  destruct (Z.compare_spec a1 b1), (Z.compare_spec a2 b2), (Z.compare_spec a3 b3);
    split; intros; try discriminate; try reflexivity;
    try (f_equal; [f_equal|]; lia); simplify_eq; lia.
Qed.

Lemma ltb_rank x y :
  (x <? y)%float = true <->
  not_nan x /\ not_nan y /\ lex3 (rank (Prim2SF x)) (rank (Prim2SF y)) = Lt.
Proof.
  rewrite FloatAxioms.ltb_spec. unfold SFltb, not_nan. rewrite SFcompare_rank.
  destruct (is_nan_sf (Prim2SF x)), (is_nan_sf (Prim2SF y)); simpl;
    try (split; [discriminate | intros (?&?&?); discriminate]).
  destruct (lex3 _ _); split; intros; try discriminate; auto.
  all: destruct H as (_&_&?); discriminate.
Qed.

Lemma eqb_rank x y :
  (x =? y)%float = true <->
  not_nan x /\ not_nan y /\ rank (Prim2SF x) = rank (Prim2SF y).
Proof.
  rewrite FloatAxioms.eqb_spec. unfold SFeqb, not_nan. rewrite SFcompare_rank.
  destruct (is_nan_sf (Prim2SF x)), (is_nan_sf (Prim2SF y)); simpl;
    try (split; [discriminate | intros (?&?&?); discriminate]).
  rewrite <- lex3_eq.
  destruct (lex3 _ _); split; intros; try discriminate; auto.
  all: destruct H as (_&_&?); discriminate.
Qed.

Lemma leb_rank x y :
  (x <=? y)%float = true <->
  not_nan x /\ not_nan y /\ lex3 (rank (Prim2SF x)) (rank (Prim2SF y)) <> Gt.
Proof.
  rewrite FloatAxioms.leb_spec. unfold SFleb, not_nan. rewrite SFcompare_rank.
  destruct (is_nan_sf (Prim2SF x)), (is_nan_sf (Prim2SF y)); simpl;
    try (split; [discriminate | intros (?&?&?); discriminate]).
  destruct (lex3 _ _); split; intros; try discriminate; auto.
  destruct H as (_&_&?); congruence.
Qed.

Lemma lex3_gt a b : lex3 a b = Gt <-> lex3 b a = Lt.
Proof.
  destruct a as [[a1 a2] a3], b as [[b1 b2] b3]; simpl.
  rewrite (Z.compare_antisym a1 b1), (Z.compare_antisym a2 b2), (Z.compare_antisym a3 b3).
  destruct (a1 ?= b1), (a2 ?= b2), (a3 ?= b3); simpl; split; congruence.
Qed.

Lemma eqb_refl x : (x =? x)%float = true <-> not_nan x.
Proof. rewrite eqb_rank. tauto. Qed.

Lemma eqb_sym x y : (x =? y)%float = (y =? x)%float.
Proof.
  apply eq_true_iff_eq. rewrite !eqb_rank. intuition congruence.
Qed.

Lemma eqb_trans x y z :
  (x =? y)%float = true -> (y =? z)%float = true -> (x =? z)%float = true.
Proof. rewrite !eqb_rank. intuition congruence. Qed.

Lemma eqb_not_nan x y :
  (x =? y)%float = true -> (x =? x)%float = true /\ (y =? y)%float = true.
Proof. rewrite !eqb_rank. tauto. Qed.

Lemma ltb_not_nan x y :
  (x <? y)%float = true -> (x =? x)%float = true /\ (y =? y)%float = true.
Proof. rewrite ltb_rank, !eqb_rank. tauto. Qed.

Lemma ltb_trans x y z :
  (x <? y)%float = true -> (y <? z)%float = true -> (x <? z)%float = true.
Proof.
  rewrite !ltb_rank, !lex3_lt. intros (?&?&?) (?&?&?). repeat split; auto. lia.
Qed.

Lemma ltb_irrefl x : (x <? x)%float = false.
Proof.
  apply not_true_iff_false. rewrite ltb_rank, lex3_lt. intros (_&_&?). lia.
Qed.

Lemma ltb_eqb_l x y z :
  (x =? y)%float = true -> (x <? z)%float = (y <? z)%float.
Proof.
  intros H. apply eq_true_iff_eq. revert H.
  rewrite eqb_rank, !ltb_rank. intros (?&?&->). tauto.
Qed.

Lemma ltb_eqb_r x y z :
  (x =? y)%float = true -> (z <? x)%float = (z <? y)%float.
Proof.
  intros H. apply eq_true_iff_eq. revert H.
  rewrite eqb_rank, !ltb_rank. intros (?&?&->). tauto.
Qed.

(** [x <= y] holds exactly when both are numbers and [y < x] fails. *)
Lemma leb_ltb x y :
  (x <=? y)%float = true <->
  (x =? x)%float = true /\ (y =? y)%float = true /\ (y <? x)%float = false.
Proof.
  rewrite leb_rank, !eqb_refl, <- not_true_iff_false, ltb_rank, lex3_gt.
  tauto.
Qed.

(** Two numbers neither of which is below the other compare equal. *)
Lemma eqb_ltb x y :
  (x =? y)%float = true <->
  (x =? x)%float = true /\ (y =? y)%float = true /\
  (x <? y)%float = false /\ (y <? x)%float = false.
Proof.
  rewrite <- !not_true_iff_false, !eqb_refl, !ltb_rank, eqb_rank.
  rewrite <- (lex3_gt (rank (Prim2SF x)) (rank (Prim2SF y))), <- lex3_eq.
  destruct (lex3 _ _); intuition congruence.
Qed.

End FloatOrder.

(** ** The scenarios of the header's usage example, at prices that binary64
    represents exactly *)

Example usage_best_bid :
  get_best_bid usage_book = Some (mkPriceLevel 100 1000 1 true).
Proof. reflexivity. Qed.

Example usage_best_ask :
  get_best_ask usage_book = Some (mkPriceLevel 100.25 800 3 true).
Proof. reflexivity. Qed.

Example usage_spread_mid :
  get_spread usage_book = Some 0.25%float /\
  get_mid_price usage_book = Some 100.125%float.
Proof. split; reflexivity. Qed.

Example usage_withdraw :
  get_best_bid (run usage_book [UpdateBid 100 0 5])
  = Some (mkPriceLevel 99.5 500 2 true).
Proof. reflexivity. Qed.

Example usage_overwrite :
  get_best_bid (run usage_book [UpdateBid 100 2000 6])
  = Some (mkPriceLevel 100 2000 6 true).
Proof. reflexivity. Qed.

Example fresh_book_is_empty n :
  get_best_bid (new_LockFreeOrderBook n) = None /\
  get_best_ask (new_LockFreeOrderBook n) = None.
Proof.
  unfold get_best_bid, get_best_ask; simpl. induction n as [|n [IH1 IH2]]; auto.
Qed.

(** ** Slot-level facts *)

Lemma try_acquire_valid level p s t :
  valid level = true -> try_acquire level p s t = None.
Proof. unfold try_acquire. intros ->. reflexivity. Qed.

Lemma try_acquire_empty level p s t :
  valid level = false -> try_acquire level p s t = Some (mkPriceLevel p s t true).
Proof. unfold try_acquire. intros ->. reflexivity. Qed.

Lemma update_existing_other level p s t :
  (price level =? p)%float = false -> update_existing level p s t = None.
Proof. unfold update_existing. intros ->. reflexivity. Qed.

Lemma update_existing_withdraw level p t :
  (price level =? p)%float = true ->
  update_existing level p 0 t = Some (store_valid false level).
Proof. unfold update_existing. intros ->. reflexivity. Qed.

Lemma update_existing_overwrite level p s t :
  (price level =? p)%float = true -> s <> 0 ->
  update_existing level p s t
  = Some (mkPriceLevel (price level) s t (valid level)).
Proof.
  unfold update_existing. intros -> Hs.
  destruct (Z.eqb_spec s 0); [contradiction | reflexivity].
Qed.

Lemma slot_cases level p : slot_case level p.
Proof.
  destruct (valid level) eqn:Hv; [|by apply slot_empty].
  destruct (price level =? p)%float eqn:Hp;
    [by apply slot_match | by apply slot_skip].
Qed.

Lemma update_level_cons_empty level levels p s t :
  valid level = false ->
  update_level (level :: levels) p s t = (true, mkPriceLevel p s t true :: levels).
Proof. intros Hv. simpl. by rewrite try_acquire_empty. Qed.

Lemma update_level_cons_match level levels p s t :
  valid level = true -> (price level =? p)%float = true ->
  update_level (level :: levels) p s t
  = (true, (if s =? 0 then store_valid false level
            else mkPriceLevel (price level) s t (valid level)) :: levels).
Proof.
  intros Hv Hp. simpl. rewrite try_acquire_valid by done.
  unfold update_existing. by rewrite Hp.
Qed.

Lemma update_level_cons_skip level levels p s t :
  valid level = true -> (price level =? p)%float = false ->
  update_level (level :: levels) p s t
  = ((update_level levels p s t).1, level :: (update_level levels p s t).2).
Proof.
  intros Hv Hp. simpl. rewrite try_acquire_valid, update_existing_other by done.
  by destruct (update_level levels p s t).
Qed.

(** ** The update scan *)

Section UpdateLevel.

(** Case analysis on the head slot, following the loop body. *)
Ltac head_slot level p :=
  let Hv := fresh "Hv" in
  let Hp := fresh "Hp" in
  destruct (slot_cases level p) as [Hv|Hv Hp|Hv Hp];
  [ rewrite (update_level_cons_empty level) by exact Hv
  | rewrite (update_level_cons_match level) by assumption
  | rewrite (update_level_cons_skip level) by assumption ].

Lemma update_level_false_iff levels p s t :
  (update_level levels p s t).1 = false <-> full_and_novel levels p.
Proof.
  unfold full_and_novel.
  induction levels as [|level levels IH].
  - split; [constructor | reflexivity].
  - head_slot level p; simpl; rewrite Forall_cons.
    + split; [discriminate | intros [[? _] _]; congruence].
    + split; [discriminate | intros [[_ ?] _]; congruence].
    + rewrite IH. tauto.
Qed.

Lemma update_level_true_iff levels p s t :
  (update_level levels p s t).1 = true <->
  Exists (fun level => valid level = false \/ (price level =? p)%float = true)
         levels.
Proof.
  induction levels as [|level levels IH].
  - rewrite Exists_nil. simpl. split; [discriminate | tauto].
  - rewrite Exists_cons. head_slot level p; simpl.
    + tauto.
    + tauto.
    + rewrite IH. intuition congruence.
Qed.

Lemma update_level_false_unchanged levels p s t :
  (update_level levels p s t).1 = false -> (update_level levels p s t).2 = levels.
Proof.
  induction levels as [|level levels IH]; [reflexivity|].
  head_slot level p; simpl; try discriminate.
  intros H. by rewrite IH.
Qed.

Lemma update_level_length levels p s t :
  length (update_level levels p s t).2 = length levels.
Proof.
  induction levels as [|level levels IH]; [reflexivity|].
  head_slot level p; simpl; by rewrite ?IH.
Qed.

(** Repeating a call with a non-zero size and a price that is a number finds
    the slot the first call wrote and rewrites the same payload. *)
Lemma update_level_twice levels p s t :
  s <> 0 -> (p =? p)%float = true ->
  update_level (update_level levels p s t).2 p s t = update_level levels p s t.
Proof.
  intros Hs Hp0.
  induction levels as [|level levels IH]; [reflexivity|].
  assert (Hs0 : (s =? 0) = false) by by apply Z.eqb_neq.
  head_slot level p; simpl snd.
  - rewrite update_level_cons_match by done. by rewrite Hs0.
  - rewrite Hs0. rewrite update_level_cons_match by done. by rewrite Hs0.
  - rewrite update_level_cons_skip by done. by rewrite IH.
Qed.

(** An accepted call with a non-zero size leaves a valid slot carrying the
    price (the incoming one, or the equal one already there), the size and
    the timestamp. *)
Lemma update_level_stores levels p s t :
  s <> 0 ->
  (update_level levels p s t).1 = true ->
  Exists (fun level => valid level = true /\
                       (price level = p \/ (price level =? p)%float = true) /\
                       size level = s /\ timestamp_ns level = t)
         (update_level levels p s t).2.
Proof.
  intros Hs.
  induction levels as [|level levels IH]; [discriminate|].
  assert (Hs0 : (s =? 0) = false) by by apply Z.eqb_neq.
  head_slot level p; simpl; intros H.
  - apply Exists_cons_hd. simpl. auto.
  - rewrite Hs0. apply Exists_cons_hd. simpl. auto.
  - apply Exists_cons_tl. by apply IH.
Qed.

(** A call at another price leaves a valid slot holding [p] in place. *)
Lemma update_level_keeps levels p q s t :
  (q =? p)%float = false ->
  Exists (fun level => valid level = true /\ (price level =? p)%float = true)
         levels ->
  Exists (fun level => valid level = true /\ (price level =? p)%float = true)
         (update_level levels q s t).2.
Proof.
  intros Hqp. induction levels as [|level levels IH]; [by rewrite Exists_nil|].
  rewrite Exists_cons. intros Hex.
  head_slot level q; simpl.
  - destruct Hex as [[? _]|Hex]; [congruence | by apply Exists_cons_tl].
  - destruct Hex as [[_ Hlp]|Hex]; [| by apply Exists_cons_tl].
    rewrite FloatOrder.eqb_sym in Hp.
    pose proof (FloatOrder.eqb_trans _ _ _ Hp Hlp). congruence.
  - destruct Hex as [Hex|Hex]; [by apply Exists_cons_hd|].
    apply Exists_cons_tl. by apply IH.
Qed.

(** Publishing a positive size, or withdrawing a level the scan finds, keeps
    every valid slot at a positive size. *)
Lemma update_level_sizes_positive levels p s t :
  0 < s \/ (s = 0 /\ finds_level levels p = true) ->
  sizes_positive levels ->
  sizes_positive (update_level levels p s t).2.
Proof.
  unfold sizes_positive.
  induction levels as [|level levels IH]; intros Hs Hpos; [constructor|].
  apply Forall_cons in Hpos as [Hl Hpos].
  head_slot level p; simpl; apply Forall_cons.
  - split; [|done]. simpl. intros _.
    destruct Hs as [?|[_ Hf]]; [done|]. simpl in Hf. rewrite Hv in Hf. done.
  - split; [|done]. destruct (Z.eqb_spec s 0) as [->|Hne]; simpl; [done|].
    intros _. destruct Hs as [?|[? _]]; [done | contradiction].
  - split; [done|]. apply IH; [|done].
    destruct Hs as [?|[? Hf]]; [by left | right]. split; [done|].
    simpl in Hf. by rewrite Hv, Hp in Hf.
Qed.

Lemma same_but_size_refl s s' levels :
  Forall2 (same_but_size s s') levels levels.
Proof.
  induction levels; constructor; [|done]. unfold same_but_size. repeat split; auto.
Qed.

(** The scan branches on the size only through [size == 0]: two non-zero
    sizes take the same path and write the same slot. *)
Lemma update_level_size_irrelevant levels p s s' t :
  s <> 0 -> s' <> 0 ->
  (update_level levels p s t).1 = (update_level levels p s' t).1 /\
  Forall2 (same_but_size s s')
          (update_level levels p s t).2 (update_level levels p s' t).2.
Proof.
  intros Hs Hs'.
  assert (Hs0 : (s =? 0) = false) by by apply Z.eqb_neq.
  assert (Hs0' : (s' =? 0) = false) by by apply Z.eqb_neq.
  induction levels as [|level levels [IH1 IH2]]; [by split; [|constructor]|].
  destruct (slot_cases level p) as [Hv|Hv Hp|Hv Hp].
  - rewrite !(update_level_cons_empty level) by done. simpl.
    split; [done|]. constructor; [|apply same_but_size_refl].
    unfold same_but_size; simpl; repeat split; auto.
  - rewrite !(update_level_cons_match level) by done. simpl.
    rewrite Hs0, Hs0'. split; [done|]. constructor; [|apply same_but_size_refl].
    unfold same_but_size; simpl; repeat split; auto.
  - rewrite !(update_level_cons_skip level) by done. simpl.
    split; [done|]. constructor; [|done]. unfold same_but_size. repeat split; auto.
Qed.

End UpdateLevel.

(** ** The best-of-side scans *)

(** What [best_scan] returns, for any comparison that is irreflexive and
    transitive. *)
Section BestScan.

Variable beats : float -> float -> bool.
Hypothesis beats_irrefl : forall x, beats x x = false.
Hypothesis beats_trans :
  forall x y z, beats x y = true -> beats y z = true -> beats x z = true.

Lemma beats_false_trans x y z :
  beats x y = true -> beats x z = false -> beats y z = false.
Proof.
  intros Hxy Hxz. destruct (beats y z) eqn:Hyz; [|reflexivity].
  rewrite (beats_trans _ _ _ Hxy Hyz) in Hxz. discriminate.
Qed.

(** Either the scan keeps what it started with and nothing valid beats the
    initial extremum, or it ends on a valid slot that beats the initial
    extremum and that no valid slot beats. *)
Lemma best_scan_cases levels best_price best_level :
  (best_scan beats levels best_price best_level = best_level /\
   unbeaten beats best_price levels)
  \/ (exists r, best_scan beats levels best_price best_level = Some r /\
                r ∈ levels /\ valid r = true /\
                beats best_price (price r) = true /\
                unbeaten beats (price r) levels).
Proof.
  unfold unbeaten.
  revert best_price best_level.
  induction levels as [|level rest IH]; intros best_price best_level; simpl.
  - left. split; [reflexivity | constructor].
  - destruct (valid level) eqn:Hv; simpl;
      [destruct (beats best_price (price level)) eqn:Hb|].
    + right.
      destruct (IH (price level) (Some level)) as [[-> Hun]|(r & -> & Hin & Hr & Hbr & Hun)].
      * exists level. rewrite Hv, elem_of_cons, Forall_cons.
        repeat split; auto.
      * exists r. rewrite elem_of_cons, Forall_cons.
        repeat split; eauto.
        intros _. eapply beats_false_trans; [exact Hbr | apply beats_irrefl].
    + destruct (IH best_price best_level) as [[-> Hun]|(r & -> & Hin & Hr & Hbr & Hun)].
      * left. rewrite Forall_cons. auto.
      * right. exists r. rewrite elem_of_cons, Forall_cons.
        repeat split; auto.
        intros _. destruct (beats (price r) (price level)) eqn:Hrl; [|done].
        rewrite (beats_trans _ _ _ Hbr Hrl) in Hb. discriminate.
    + destruct (IH best_price best_level) as [[-> Hun]|(r & -> & Hin & Hr & Hbr & Hun)].
      * left. rewrite Forall_cons. split; [reflexivity|].
        split; [congruence | done].
      * right. exists r. rewrite elem_of_cons, Forall_cons.
        repeat split; auto. congruence.
Qed.

Lemma best_scan_none levels best_price :
  best_scan beats levels best_price None = None <-> unbeaten beats best_price levels.
Proof.
  destruct (best_scan_cases levels best_price None)
    as [[-> Hun]|(r & -> & Hin & Hr & Hbr & Hun)].
  - tauto.
  - split; [discriminate|]. unfold unbeaten. rewrite Forall_forall.
    intros Hall. rewrite (Hall r Hin Hr) in Hbr. discriminate.
Qed.

Lemma best_scan_some levels best_price r :
  best_scan beats levels best_price None = Some r ->
  r ∈ levels /\ valid r = true /\ beats best_price (price r) = true /\
  unbeaten beats (price r) levels.
Proof.
  destruct (best_scan_cases levels best_price None)
    as [[-> Hun]|(r' & -> & Hin & Hr & Hbr & Hun)]; [discriminate|].
  intros [= <-]. auto.
Qed.

End BestScan.

Lemma best_bid_scan_eq levels best_price best_level :
  best_bid_scan levels best_price best_level
  = best_scan bid_beats levels best_price best_level.
Proof.
  revert best_price best_level.
  induction levels as [|level rest IH]; intros; simpl; [reflexivity|].
  unfold bid_beats at 1. by rewrite !IH.
Qed.

Lemma best_ask_scan_eq levels best_price best_level :
  best_ask_scan levels best_price best_level
  = best_scan ask_beats levels best_price best_level.
Proof.
  revert best_price best_level.
  induction levels as [|level rest IH]; intros; simpl; [reflexivity|].
  unfold ask_beats at 1. by rewrite !IH.
Qed.

Lemma bid_beats_irrefl x : bid_beats x x = false.
Proof. apply FloatOrder.ltb_irrefl. Qed.

Lemma bid_beats_trans x y z :
  bid_beats x y = true -> bid_beats y z = true -> bid_beats x z = true.
Proof. apply FloatOrder.ltb_trans. Qed.

Lemma ask_beats_irrefl x : ask_beats x x = false.
Proof. apply FloatOrder.ltb_irrefl. Qed.

Lemma ask_beats_trans x y z :
  ask_beats x y = true -> ask_beats y z = true -> ask_beats x z = true.
Proof. unfold ask_beats. intros H1 H2. exact (FloatOrder.ltb_trans _ _ _ H2 H1). Qed.

(** What the two queries return, in terms of the slots of their side. *)
Lemma get_best_bid_none b :
  get_best_bid b = None <->
  forall level, level ∈ bids_ b -> valid level = true ->
                (0 <? price level)%float = false.
Proof.
  unfold get_best_bid. rewrite best_bid_scan_eq.
  rewrite (best_scan_none _ bid_beats_irrefl bid_beats_trans).
  unfold unbeaten. by rewrite Forall_forall.
Qed.

Lemma get_best_bid_some b r :
  get_best_bid b = Some r ->
  r ∈ bids_ b /\ valid r = true /\ (0 <? price r)%float = true /\
  forall level, level ∈ bids_ b -> valid level = true ->
                (price r <? price level)%float = false.
Proof.
  unfold get_best_bid. rewrite best_bid_scan_eq. intros Hr.
  apply (best_scan_some _ bid_beats_irrefl bid_beats_trans) in Hr
    as (Hin & Hv & Hb & Hun).
  unfold unbeaten in Hun. rewrite Forall_forall in Hun. auto.
Qed.

Lemma get_best_ask_none b :
  get_best_ask b = None <->
  forall level, level ∈ asks_ b -> valid level = true ->
                (price level <? DBL_MAX)%float = false.
Proof.
  unfold get_best_ask. rewrite best_ask_scan_eq.
  rewrite (best_scan_none _ ask_beats_irrefl ask_beats_trans).
  unfold unbeaten. by rewrite Forall_forall.
Qed.

Lemma get_best_ask_some b r :
  get_best_ask b = Some r ->
  r ∈ asks_ b /\ valid r = true /\ (price r <? DBL_MAX)%float = true /\
  forall level, level ∈ asks_ b -> valid level = true ->
                (price level <? price r)%float = false.
Proof.
  unfold get_best_ask. rewrite best_ask_scan_eq. intros Hr.
  apply (best_scan_some _ ask_beats_irrefl ask_beats_trans) in Hr
    as (Hin & Hv & Hb & Hun).
  unfold unbeaten in Hun. rewrite Forall_forall in Hun. auto.
Qed.

(** ** Book-level projections *)

Lemma update_bid_result b p s t :
  (update_bid b p s t).1 = (update_level (bids_ b) p s t).1.
Proof. unfold update_bid. by destruct (update_level (bids_ b) p s t). Qed.

Lemma update_bid_bids b p s t :
  bids_ (update_bid b p s t).2 = (update_level (bids_ b) p s t).2.
Proof. unfold update_bid. by destruct (update_level (bids_ b) p s t). Qed.

Lemma update_bid_asks b p s t : asks_ (update_bid b p s t).2 = asks_ b.
Proof. unfold update_bid. by destruct (update_level (bids_ b) p s t). Qed.

Lemma update_ask_result b p s t :
  (update_ask b p s t).1 = (update_level (asks_ b) p s t).1.
Proof. unfold update_ask. by destruct (update_level (asks_ b) p s t). Qed.

Lemma update_ask_asks b p s t :
  asks_ (update_ask b p s t).2 = (update_level (asks_ b) p s t).2.
Proof. unfold update_ask. by destruct (update_level (asks_ b) p s t). Qed.

Lemma update_ask_bids b p s t : bids_ (update_ask b p s t).2 = bids_ b.
Proof. unfold update_ask. by destruct (update_level (asks_ b) p s t). Qed.

Lemma book_ext (b b' : LockFreeOrderBook) :
  bids_ b = bids_ b' -> asks_ b = asks_ b' -> b = b'.
Proof. destruct b, b'; simpl; congruence. Qed.

(** * Properties *)

(** ** Failure leaves the book untouched *)

(** C9: whenever [update_bid] or [update_ask] returns [false], the book after
    the call is the book before it: every field of every slot on both sides
    is as it was. *)
Theorem update_failure_changes_nothing (b : LockFreeOrderBook) (p : float) (s t : Z) :
  ((update_bid b p s t).1 = false -> (update_bid b p s t).2 = b) /\
  ((update_ask b p s t).1 = false -> (update_ask b p s t).2 = b).
Proof.
  split; intros H.
  - rewrite update_bid_result in H. apply book_ext.
    + rewrite update_bid_bids. by apply update_level_false_unchanged.
    + apply update_bid_asks.
  - rewrite update_ask_result in H. apply book_ext.
    + apply update_ask_bids.
    + rewrite update_ask_asks. by apply update_level_false_unchanged.
Qed.

Lemma update_failure_changes_nothing_witness :
  ((update_bid full_book_1 99 5 3).1 = false /\
   (update_bid full_book_1 99 5 3).2 = full_book_1) /\
  ((update_ask full_book_1 102 5 3).1 = false /\
   (update_ask full_book_1 102 5 3).2 = full_book_1).
Proof.
  split; (split; [reflexivity|]).
  - apply (update_failure_changes_nothing full_book_1 99 5 3). reflexivity.
  - apply (update_failure_changes_nothing full_book_1 102 5 3). reflexivity.
Defined.

(** ** Best of side *)

(** C5 as stated fails: a valid bid priced [0.0] never exceeds the initial
    extremum [0.0], and a valid ask priced [DBL_MAX] is never below the
    initial extremum, so both queries return empty although a slot is
    valid. *)
Lemma best_of_side_empty_with_valid_slot :
  ~ (get_best_bid sentinel_book = None <->
     Forall (fun level => valid level = false) (bids_ sentinel_book)) /\
  ~ (get_best_ask sentinel_book = None <->
     Forall (fun level => valid level = false) (asks_ sentinel_book)).
Proof.
  split; intros [H _]; specialize (H eq_refl);
    apply Forall_cons in H as [H _]; discriminate H.
Qed.

(** C5, amended: [get_best_bid] returns empty exactly when no valid bid slot
    has a price above [0.0]; otherwise it returns a copy of a valid slot
    priced above [0.0] such that no valid slot has a higher price (every
    valid slot whose price is a number is priced at most as high).
    [get_best_ask] returns empty exactly when no valid ask slot has a price
    below [DBL_MAX]; otherwise a copy of a valid slot priced below [DBL_MAX]
    such that no valid slot has a lower price. *)
Theorem best_of_side (b : LockFreeOrderBook) :
  (get_best_bid b = None <->
   forall level, level ∈ bids_ b -> valid level = true ->
                 (0 <? price level)%float = false) /\
  (forall r, get_best_bid b = Some r ->
     r ∈ bids_ b /\ valid r = true /\ (0 <? price r)%float = true /\
     forall level, level ∈ bids_ b -> valid level = true ->
       (price r <? price level)%float = false /\
       ((price level =? price level)%float = true ->
        (price level <=? price r)%float = true)) /\
  (get_best_ask b = None <->
   forall level, level ∈ asks_ b -> valid level = true ->
                 (price level <? DBL_MAX)%float = false) /\
  (forall r, get_best_ask b = Some r ->
     r ∈ asks_ b /\ valid r = true /\ (price r <? DBL_MAX)%float = true /\
     forall level, level ∈ asks_ b -> valid level = true ->
       (price level <? price r)%float = false /\
       ((price level =? price level)%float = true ->
        (price r <=? price level)%float = true)).
Proof.
  split; [apply get_best_bid_none|]. split; [|split; [apply get_best_ask_none|]].
  - intros r Hr. apply get_best_bid_some in Hr as (Hin & Hv & Hb & Hun).
    repeat split; auto.
    intros Hnum. apply FloatOrder.leb_ltb.
    split; [done|]. split; [by apply (FloatOrder.ltb_not_nan _ _ Hb)|]. auto.
  - intros r Hr. apply get_best_ask_some in Hr as (Hin & Hv & Hb & Hun).
    repeat split; auto.
    intros Hnum. apply FloatOrder.leb_ltb.
    split; [by apply (FloatOrder.ltb_not_nan _ _ Hb)|]. split; [done|]. auto.
Qed.

Lemma best_of_side_witness :
  (price (mkPriceLevel 100 1000 1 true) <? price (mkPriceLevel 99.5 500 2 true))%float
  = false /\
  (price (mkPriceLevel 100.5 1200 4 true) <? price (mkPriceLevel 100.25 800 3 true))%float
  = false.
Proof.
  split.
  - destruct (best_of_side usage_book) as (_ & Hbid & _).
    destruct (Hbid (mkPriceLevel 100 1000 1 true) eq_refl) as (_ & _ & _ & Hmax).
    apply (Hmax (mkPriceLevel 99.5 500 2 true)); [|reflexivity].
    apply list_elem_of_In. simpl. auto.
  - destruct (best_of_side usage_book) as (_ & _ & _ & Hask).
    destruct (Hask (mkPriceLevel 100.25 800 3 true) eq_refl) as (_ & _ & _ & Hmin).
    apply (Hmin (mkPriceLevel 100.5 1200 4 true)); [|reflexivity].
    apply list_elem_of_In. simpl. auto.
Defined.

(** ** Mid price and spread *)

(** C7: when both [get_best_bid] and [get_best_ask] return a snapshot,
    [get_mid_price] returns [(bid.price + ask.price) / 2] and [get_spread]
    returns [ask.price - bid.price], the raw difference; when either side
    yields nothing both return empty.  On the crossed book (bid 101, ask 100)
    the spread is [-1], below zero, and the mid price is [100.5]. *)
Theorem mid_and_spread (b : LockFreeOrderBook) :
  match get_best_bid b, get_best_ask b with
  | Some bid, Some ask =>
      get_mid_price b = Some ((price bid + price ask) / 2)%float /\
      get_spread b = Some (price ask - price bid)%float
  | _, _ => get_mid_price b = None /\ get_spread b = None
  end /\
  (get_spread crossed_book = Some (-1)%float /\
   ((-1) <? 0)%float = true /\
   get_mid_price crossed_book = Some 100.5%float).
Proof.
  split.
  - unfold get_mid_price, get_spread.
    destruct (get_best_bid b) as [bid|], (get_best_ask b) as [ask|]; auto.
  - repeat split; reflexivity.
Qed.

(** ** When an update fails *)

Section Capacity.

Lemma run_bid_ops b us :
  run b (bid_ops us) = mkBook (update_all (bids_ b) us).2 (asks_ b) /\
  results b (bid_ops us) = (update_all (bids_ b) us).1.
Proof.
  revert b. induction us as [|u us IH]; intros b; simpl.
  - by destruct b.
  - destruct (IH (update_bid b u.1.1 u.1.2 u.2).2) as [-> ->].
    by rewrite update_bid_bids, update_bid_asks, update_bid_result.
Qed.

Lemma run_ask_ops b us :
  run b (ask_ops us) = mkBook (bids_ b) (update_all (asks_ b) us).2 /\
  results b (ask_ops us) = (update_all (asks_ b) us).1.
Proof.
  revert b. induction us as [|u us IH]; intros b; simpl.
  - by destruct b.
  - destruct (IH (update_ask b u.1.1 u.1.2 u.2).2) as [-> ->].
    by rewrite update_ask_bids, update_ask_asks, update_ask_result.
Qed.

(** Past a prefix of valid slots at other prices, the update takes the first
    empty slot. *)
Lemma update_level_past_prefix pre post p s t :
  Forall (fun level => valid level = true /\ (price level =? p)%float = false) pre ->
  update_level (pre ++ empty_slots 1 ++ post) p s t
  = (true, pre ++ mkPriceLevel p s t true :: post).
Proof.
  induction pre as [|level pre IH]; intros Hpre.
  - reflexivity.
  - apply Forall_cons in Hpre as [[Hv Hp] Hpre].
    rewrite <- !app_comm_cons, update_level_cons_skip by done.
    by rewrite IH.
Qed.

Lemma empty_slots_S k : empty_slots (S k) = empty_slots 1 ++ empty_slots k.
Proof. reflexivity. Qed.

(** Updates at pairwise different prices fill the empty slots in order,
    whatever their sizes. *)
Lemma update_all_fills us : forall pre k,
  Forall (fun level => valid level = true /\
            Forall (fun u => (price level =? u.1.1)%float = false) us) pre ->
  distinct_prices ((fun u => u.1.1) <$> us) = true ->
  update_all (pre ++ empty_slots (length us + k)) us
  = (replicate (length us) true, pre ++ (written <$> us) ++ empty_slots k).
Proof.
  induction us as [|u us IH]; intros pre k Hpre Hd; [reflexivity|].
  simpl in Hd. apply andb_prop in Hd as [Hu Hd].
  cbn [update_all length Nat.add]. rewrite empty_slots_S.
  rewrite update_level_past_prefix.
  2:{ eapply Forall_impl; [exact Hpre|]. intros level [Hv Hall].
      apply Forall_cons in Hall as [? _]. done. }
  cbn [fst snd].
  change (pre ++ mkPriceLevel u.1.1 u.1.2 u.2 true :: empty_slots (length us + k))
    with (pre ++ [written u] ++ empty_slots (length us + k)).
  rewrite app_assoc, IH; [| |exact Hd].
  - by rewrite <- app_assoc.
  - apply Forall_app. split.
    + eapply Forall_impl; [exact Hpre|]. intros level [Hv Hall].
      apply Forall_cons in Hall as [_ ?]. done.
    + apply Forall_singleton. split; [reflexivity|]. simpl.
      rewrite forallb_forall in Hu. apply Forall_forall. intros u' Hin.
      apply negb_true_iff, Hu, list_elem_of_In.
      by apply (list_elem_of_fmap_2 (fun u => u.1.1)).
Qed.

Lemma filled_bids_eq us :
  distinct_prices ((fun u => u.1.1) <$> us) = true ->
  filled_bids us = mkBook (written <$> us) (empty_slots (length us)) /\
  results (new_LockFreeOrderBook (length us)) (bid_ops us)
  = replicate (length us) true.
Proof.
  intros Hd. unfold filled_bids.
  destruct (run_bid_ops (new_LockFreeOrderBook (length us)) us) as [-> ->].
  pose proof (update_all_fills us [] 0 (Forall_nil_2 _) Hd) as H.
  rewrite Nat.add_0_r, app_nil_r in H. simpl in H.
  unfold new_LockFreeOrderBook; simpl. fold (empty_slots (length us)).
  by rewrite H.
Qed.

Lemma filled_asks_eq us :
  distinct_prices ((fun u => u.1.1) <$> us) = true ->
  filled_asks us = mkBook (empty_slots (length us)) (written <$> us) /\
  results (new_LockFreeOrderBook (length us)) (ask_ops us)
  = replicate (length us) true.
Proof.
  intros Hd. unfold filled_asks.
  destruct (run_ask_ops (new_LockFreeOrderBook (length us)) us) as [-> ->].
  pose proof (update_all_fills us [] 0 (Forall_nil_2 _) Hd) as H.
  rewrite Nat.add_0_r, app_nil_r in H. simpl in H.
  unfold new_LockFreeOrderBook; simpl. fold (empty_slots (length us)).
  by rewrite H.
Qed.

Lemma novel_price_repeat p us : novel_price p us = negb (repeat_price p us).
Proof.
  unfold novel_price, repeat_price.
  induction us as [|u us IH]; simpl; [reflexivity|].
  rewrite IH. by destruct (u.1.1 =? p)%float.
Qed.

(** On a side holding exactly the levels written by [us], an update is
    accepted exactly when its price repeats one of them. *)
Lemma update_level_written us p s t :
  (update_level (written <$> us) p s t).1 = repeat_price p us.
Proof.
  unfold repeat_price.
  induction us as [|u us IH]; [reflexivity|].
  cbn [fmap list_fmap existsb].
  destruct (u.1.1 =? p)%float eqn:Hp.
  - by rewrite update_level_cons_match.
  - rewrite update_level_cons_skip by done. exact IH.
Qed.

End Capacity.

(** C4: [update_bid] (and [update_ask]) returns [false] if and only if every
    slot of the side is valid and none holds a price equal to [p]; any other
    call returns [true].  In particular, after [N] updates at [N] pairwise
    different prices with non-zero sizes on a fresh book of capacity [N], all
    of them accepted, an update at a further novel price returns [false] and
    an update repeating one of the prices returns [true]. *)
Theorem update_fails_iff_full_and_novel :
  (forall (b : LockFreeOrderBook) (p : float) (s t : Z),
     ((update_bid b p s t).1 = false <-> full_and_novel (bids_ b) p) /\
     ((update_ask b p s t).1 = false <-> full_and_novel (asks_ b) p) /\
     ((update_bid b p s t).1 = true <->
      exists level, level ∈ bids_ b /\
        (valid level = false \/ (price level =? p)%float = true)) /\
     ((update_ask b p s t).1 = true <->
      exists level, level ∈ asks_ b /\
        (valid level = false \/ (price level =? p)%float = true))) /\
  (forall (us : list (float * Z * Z)),
     distinct_prices ((fun u => u.1.1) <$> us) = true ->
     Forall (fun u => u.1.2 <> 0) us ->
     results (new_LockFreeOrderBook (length us)) (bid_ops us)
       = replicate (length us) true /\
     results (new_LockFreeOrderBook (length us)) (ask_ops us)
       = replicate (length us) true /\
     forall (p : float) (s t : Z),
       (novel_price p us = true ->
        (update_bid (filled_bids us) p s t).1 = false /\
        (update_ask (filled_asks us) p s t).1 = false) /\
       (repeat_price p us = true ->
        (update_bid (filled_bids us) p s t).1 = true /\
        (update_ask (filled_asks us) p s t).1 = true)).
Proof.
  split.
  - intros b p s t.
    rewrite update_bid_result, update_ask_result.
    rewrite !update_level_false_iff, !update_level_true_iff, !Exists_exists.
    tauto.
  - intros us Hd _.
    destruct (filled_bids_eq us Hd) as [Hb ->].
    destruct (filled_asks_eq us Hd) as [Ha ->].
    split; [reflexivity|]. split; [reflexivity|].
    intros p s t.
    rewrite update_bid_result, update_ask_result, Hb, Ha. simpl.
    rewrite !update_level_written, novel_price_repeat.
    split; intros H; [apply negb_true_iff in H|]; by rewrite H.
Qed.

Lemma update_fails_iff_full_and_novel_witness :
  (update_bid (filled_bids three_levels) 97 4 9).1 = false /\
  (update_bid (filled_bids three_levels) 99.5 4 9).1 = true.
Proof.
  destruct update_fails_iff_full_and_novel as [_ H].
  destruct (H three_levels) as (_ & _ & Hp).
  - reflexivity.
  - repeat constructor; discriminate.
  - split.
    + apply (Hp 97%float 4 9). reflexivity.
    + apply (Hp 99.5%float 4 9). reflexivity.
Defined.

(** ** Repeating an update *)

Lemma update_bid_unfold b p s t :
  update_bid b p s t
  = ((update_level (bids_ b) p s t).1,
     mkBook (update_level (bids_ b) p s t).2 (asks_ b)).
Proof. unfold update_bid. by destruct (update_level (bids_ b) p s t). Qed.

(** C8 as stated fails.  With size 0 on a fresh book the first call claims a
    slot priced 100 and the second call withdraws it: [get_best_bid] tells
    the two states apart.  With a NaN price every call claims a further
    slot, so on a two-slot book a later update at price 5 is accepted after
    one call and refused after two. *)
Lemma repeated_update_differs :
  (get_best_bid (run (new_LockFreeOrderBook 2) [UpdateBid 100 0 1])
     = Some (mkPriceLevel 100 0 1 true) /\
   get_best_bid (run (new_LockFreeOrderBook 2) [UpdateBid 100 0 1; UpdateBid 100 0 1])
     = None) /\
  ((update_bid (run (new_LockFreeOrderBook 2) [UpdateBid nan 10 1]) 5 1 2).1
     = true /\
   (update_bid (run (new_LockFreeOrderBook 2) [UpdateBid nan 10 1; UpdateBid nan 10 1]) 5 1 2).1
     = false).
Proof. repeat split; reflexivity. Qed.

(** C8, amended: for a non-zero size [s] and a price [p] that is a number
    ([p == p]), calling [update_bid(p, s, t)] a second time with the same
    arguments returns what the first call returned and leaves the book
    exactly as the first call left it. *)
Theorem update_bid_twice_same_as_once (b : LockFreeOrderBook) (p : float) (s t : Z) :
  s <> 0 -> (p =? p)%float = true ->
  update_bid (update_bid b p s t).2 p s t = update_bid b p s t.
Proof.
  intros Hs Hp. rewrite !update_bid_unfold. cbn [fst snd bids_ asks_].
  by rewrite update_level_twice.
Qed.

Lemma update_bid_twice_same_as_once_witness :
  update_bid (update_bid usage_book 100 2000 6).2 100 2000 6
  = update_bid usage_book 100 2000 6.
Proof.
  apply (update_bid_twice_same_as_once usage_book 100 2000 6);
    [discriminate | reflexivity].
Defined.

(** ** Update then read *)

Lemma run_keeps_level p os : forall b,
  Forall (fun o => touches p o = false) os ->
  holds_price p (bids_ b) -> holds_price p (bids_ (run b os)).
Proof.
  unfold holds_price.
  induction os as [|o os IH]; intros b Hos Hb; [exact Hb|].
  apply Forall_cons in Hos as [Ho Hos]. simpl. apply IH; [exact Hos|].
  destruct o as [q s t|q s t]; simpl in *.
  - rewrite update_bid_bids. by apply update_level_keeps.
  - by rewrite update_ask_bids.
Qed.

(** C6 as stated fails for a price that is not above [0.0]: the update is
    accepted, yet [get_best_bid] returns no snapshot at all.  It also fails
    for a NaN price: the update is accepted and the snapshot returned
    afterwards has a price that does not compare [>=] to it. *)
Lemma update_then_read_unordered_price :
  ((update_bid (new_LockFreeOrderBook 1) (-1.5) 10 1).1 = true /\
   get_best_bid (update_bid (new_LockFreeOrderBook 1) (-1.5) 10 1).2 = None) /\
  ((update_bid (new_LockFreeOrderBook 2) nan 10 1).1 = true /\
   get_best_bid (run (update_bid (new_LockFreeOrderBook 2) nan 10 1).2
                     [UpdateBid 5 7 2])
     = Some (mkPriceLevel 5 7 2 true) /\
   (nan <=? 5)%float = false).
Proof. repeat split; reflexivity. Qed.

(** C6, amended: for every price [p > 0.0], size [s > 0] and timestamp [t],
    if [update_bid(p, s, t)] returns [true] and no later bid update has a
    price equal to [p], then every later [get_best_bid] returns a snapshot
    whose price is at least [p], and equal to [p] when no valid bid slot is
    priced above [p]. *)
Theorem update_then_best_bid (b : LockFreeOrderBook) (p : float) (s t : Z)
    (os : list op) :
  (0 <? p)%float = true -> 0 < s ->
  (update_bid b p s t).1 = true ->
  Forall (fun o => touches p o = false) os ->
  exists r,
    get_best_bid (run (update_bid b p s t).2 os) = Some r /\
    (p <=? price r)%float = true /\
    ((forall level, level ∈ bids_ (run (update_bid b p s t).2 os) ->
        valid level = true -> (p <? price level)%float = false) ->
     (price r =? p)%float = true).
Proof.
  intros Hp Hs Hok Hos.
  destruct (FloatOrder.ltb_not_nan _ _ Hp) as [_ Hpp].
  assert (Hheld : holds_price p (bids_ (run (update_bid b p s t).2 os))).
  { apply run_keeps_level; [exact Hos|].
    rewrite update_bid_bids. rewrite update_bid_result in Hok.
    eapply Exists_impl; [apply update_level_stores; [lia | exact Hok]|].
    intros level (Hv & [->|Heq] & _); auto. }
  set (b' := run (update_bid b p s t).2 os) in *.
  apply Exists_exists in Hheld as (level & Hin & Hv & Heq).
  destruct (get_best_bid b') as [r|] eqn:Hbest.
  - exists r. split; [reflexivity|].
    apply get_best_bid_some in Hbest as (Hrin & Hrv & Hr0 & Hmax).
    destruct (FloatOrder.ltb_not_nan _ _ Hr0) as [_ Hrr].
    assert (Hrp : (price r <? p)%float = false).
    { rewrite <- (FloatOrder.ltb_eqb_r _ _ _ Heq). by apply Hmax. }
    split.
    + apply FloatOrder.leb_ltb. auto.
    + intros Htop. apply FloatOrder.eqb_ltb. auto.
  - exfalso. rewrite get_best_bid_none in Hbest.
    specialize (Hbest level Hin Hv).
    rewrite (FloatOrder.ltb_eqb_r _ _ _ Heq) in Hbest. congruence.
Qed.

Lemma update_then_best_bid_witness :
  exists r,
    get_best_bid (run (update_bid (new_LockFreeOrderBook 4) 100 10 1).2
                      [UpdateBid 99.5 5 2; UpdateAsk 100 5 3; UpdateBid 99.5 0 4])
      = Some r /\
    (100 <=? price r)%float = true.
Proof.
  destruct (update_then_best_bid (new_LockFreeOrderBook 4) 100 10 1
              [UpdateBid 99.5 5 2; UpdateAsk 100 5 3; UpdateBid 99.5 0 4])
    as (r & Hr & Hle & _).
  - reflexivity.
  - lia.
  - reflexivity.
  - repeat constructor.
  - exists r. split; assumption.
Defined.

(** ** Sizes of valid slots *)

Lemma empty_slots_invalid k :
  Forall (fun level => valid level = false) (empty_slots k).
Proof. induction k; constructor; auto. Qed.

Lemma run_sizes_positive os : forall b,
  well_sized b os = true ->
  sizes_positive (bids_ b) -> sizes_positive (asks_ b) ->
  sizes_positive (bids_ (run b os)) /\ sizes_positive (asks_ (run b os)).
Proof.
  induction os as [|o os IH]; intros b Hw Hb Ha; [by split|].
  simpl in Hw. apply andb_prop in Hw as [Ho Hw]. simpl.
  apply IH; [exact Hw| |]; destruct o as [p s t|p s t]; simpl in *;
    rewrite ?update_bid_bids, ?update_bid_asks, ?update_ask_bids, ?update_ask_asks;
    try done.
  all: apply update_level_sizes_positive; [|done].
  all: apply orb_prop in Ho as [Ho|Ho]; [left; lia | right].
  all: apply andb_prop in Ho as [Hs Hf]; split; [lia | done].
Qed.

(** C3 as stated fails: a negative size is stored as given, and a size-0
    update that meets an empty slot stores size 0 in a valid slot. *)
Lemma valid_slot_with_nonpositive_size :
  bids_ (run (new_LockFreeOrderBook 1) [UpdateBid 100 (-5) 1])
    = [mkPriceLevel 100 (-5) 1 true] /\
  bids_ (run (new_LockFreeOrderBook 1) [UpdateBid 100 0 1])
    = [mkPriceLevel 100 0 1 true].
Proof. split; reflexivity. Qed.

(** C3, amended: in every book state reached from a freshly constructed book
    by updates each of which either publishes a size above 0 or, with size
    0, finds a valid slot holding its price before any empty slot, every
    valid slot on both sides has size above 0. *)
Theorem valid_sizes_positive (MaxLevels : nat) (os : list op) :
  well_sized (new_LockFreeOrderBook MaxLevels) os = true ->
  forall level,
    level ∈ bids_ (run (new_LockFreeOrderBook MaxLevels) os) ++
            asks_ (run (new_LockFreeOrderBook MaxLevels) os) ->
    valid level = true -> 0 < size level.
Proof.
  intros Hw.
  assert (Hfresh : sizes_positive (empty_slots MaxLevels)).
  { eapply Forall_impl; [apply empty_slots_invalid|]. intros ? ->. done. }
  destruct (run_sizes_positive os (new_LockFreeOrderBook MaxLevels) Hw Hfresh Hfresh)
    as [Hb Ha].
  unfold sizes_positive in *. rewrite Forall_forall in Hb, Ha.
  intros level Hin. apply elem_of_app in Hin as [Hin|Hin]; auto.
Qed.

Lemma valid_sizes_positive_witness :
  0 < size (mkPriceLevel 99.5 500 2 true).
Proof.
  apply (valid_sizes_positive 4
           [UpdateBid 100 1000 1; UpdateBid 99.5 500 2;
            UpdateAsk 100.25 800 3; UpdateBid 100 0 5]).
  - reflexivity.
  - apply list_elem_of_In. simpl. auto.
  - reflexivity.
Defined.

(** ** Negative sizes *)

Lemma best_bid_scan_empty_slots k best_price best_level :
  best_bid_scan (empty_slots k) best_price best_level = best_level.
Proof. induction k as [|k IH]; [reflexivity | exact IH]. Qed.

(** C10: a negative size is not rejected.  The call returns [true] exactly
    when some slot is empty or holds the price; compared with the same call
    at a positive size it returns the same flag and leaves the same slots
    except for the stored size; an accepted call leaves a valid slot at that
    price with the negative size and the timestamp; and on a fresh book with
    at least one slot [get_best_bid] then returns that slot, negative size
    included, when the price is above [0.0]. *)
Theorem negative_size_accepted (b : LockFreeOrderBook) (p : float) (s t : Z) :
  s < 0 ->
  ((update_bid b p s t).1 = true <->
   exists level, level ∈ bids_ b /\
     (valid level = false \/ (price level =? p)%float = true)) /\
  (forall s', 0 < s' ->
     (update_bid b p s t).1 = (update_bid b p s' t).1 /\
     Forall2 (same_but_size s s')
             (bids_ (update_bid b p s t).2) (bids_ (update_bid b p s' t).2) /\
     asks_ (update_bid b p s t).2 = asks_ (update_bid b p s' t).2) /\
  ((update_bid b p s t).1 = true ->
   exists level, level ∈ bids_ (update_bid b p s t).2 /\
     valid level = true /\
     (price level = p \/ (price level =? p)%float = true) /\
     size level = s /\ timestamp_ns level = t) /\
  (forall n, (0 <? p)%float = true ->
     get_best_bid (update_bid (new_LockFreeOrderBook (S n)) p s t).2
     = Some (mkPriceLevel p s t true)).
Proof.
  intros Hs. split; [|split; [|split]].
  - by rewrite update_bid_result, update_level_true_iff, Exists_exists.
  - intros s' Hs'. rewrite !update_bid_result, !update_bid_bids, !update_bid_asks.
    destruct (update_level_size_irrelevant (bids_ b) p s s' t) as [H1 H2]; [lia..|].
    auto.
  - rewrite update_bid_result, update_bid_bids. intros Hok.
    apply Exists_exists. apply update_level_stores; [lia | exact Hok].
  - intros n Hp. unfold get_best_bid. rewrite update_bid_bids.
    change (bids_ (new_LockFreeOrderBook (S n)))
      with (store_valid false PriceLevel_default :: empty_slots n).
    rewrite update_level_cons_empty by reflexivity.
    cbn [snd best_bid_scan valid price andb]. rewrite Hp.
    apply best_bid_scan_empty_slots.
Qed.

Lemma negative_size_accepted_witness :
  get_best_bid (update_bid (new_LockFreeOrderBook 4) 100 (-5) 1).2
  = Some (mkPriceLevel 100 (-5) 1 true).
Proof.
  destruct (negative_size_accepted (new_LockFreeOrderBook 4) 100 (-5) 1)
    as (_ & _ & _ & H); [lia|].
  apply (H 3%nat). reflexivity.
Defined.

(** ** Withdrawal and duplicate levels *)

(** C1, at its failing inputs.  On a fresh book [update_bid(100, 0, 5)]
    claims the first empty slot and publishes price 100 with size 0, which
    [get_best_bid] then returns.  After levels 1 and 2 were published and
    level 1 withdrawn, [update_bid(2, 0, 4)] claims the slot freed at index 0
    instead of withdrawing the level at index 1: both slots end up valid at
    price 2, and [get_best_bid] returns price 2.  The ask side behaves
    alike. *)
Theorem withdrawal_publishes_level :
  get_best_bid (run (new_LockFreeOrderBook 4) [UpdateBid 100 0 5])
    = Some (mkPriceLevel 100 0 5 true) /\
  bids_ (run (new_LockFreeOrderBook 2)
             [UpdateBid 1 10 1; UpdateBid 2 10 2; UpdateBid 1 0 3; UpdateBid 2 0 4])
    = [mkPriceLevel 2 0 4 true; mkPriceLevel 2 10 2 true] /\
  get_best_bid (run (new_LockFreeOrderBook 2)
                    [UpdateBid 1 10 1; UpdateBid 2 10 2; UpdateBid 1 0 3; UpdateBid 2 0 4])
    = Some (mkPriceLevel 2 0 4 true) /\
  get_best_ask (run (new_LockFreeOrderBook 4) [UpdateAsk 100 0 5])
    = Some (mkPriceLevel 100 0 5 true).
Proof. repeat split; reflexivity. Qed.

(** C2, at its failing input.  After levels 1 and 2 were published and level
    1 withdrawn, [update_bid(2, 20, 4)] claims the slot freed at index 0
    before the scan reaches the level at index 1: two valid slots hold price
    2. *)
Theorem duplicate_price_level :
  bids_ (run (new_LockFreeOrderBook 2)
             [UpdateBid 1 10 1; UpdateBid 2 10 2; UpdateBid 1 0 3; UpdateBid 2 20 4])
    = [mkPriceLevel 2 20 4 true; mkPriceLevel 2 10 2 true] /\
  results (new_LockFreeOrderBook 2)
          [UpdateBid 1 10 1; UpdateBid 2 10 2; UpdateBid 1 0 3; UpdateBid 2 20 4]
    = [true; true; true; true].
Proof. split; reflexivity. Qed.

(** * Further properties of the operations *)

(** ** More order facts *)

Lemma ltb_leb_trans x y z :
  (x <? y)%float = true -> (y <=? z)%float = true -> (x <? z)%float = true.
Proof.
  intros Hxy Hyz. apply FloatOrder.leb_ltb in Hyz as (Hy & Hz & Hzy).
  destruct (FloatOrder.ltb_not_nan _ _ Hxy) as [Hx _].
  destruct (z <? y)%float eqn:Hlt; [discriminate|].
  destruct (y <? z)%float eqn:Hyz.
  - exact (FloatOrder.ltb_trans _ _ _ Hxy Hyz).
  - assert (Heq : (y =? z)%float = true) by (apply FloatOrder.eqb_ltb; auto).
    by rewrite <- (FloatOrder.ltb_eqb_r _ _ _ Heq).
Qed.

Lemma leb_ltb_trans x y z :
  (x <=? y)%float = true -> (y <? z)%float = true -> (x <? z)%float = true.
Proof.
  intros Hxy Hyz. apply FloatOrder.leb_ltb in Hxy as (Hx & Hy & Hyx).
  destruct (x <? y)%float eqn:Hlt.
  - exact (FloatOrder.ltb_trans _ _ _ Hlt Hyz).
  - assert (Heq : (x =? y)%float = true) by (apply FloatOrder.eqb_ltb; auto).
    by rewrite (FloatOrder.ltb_eqb_l _ _ _ Heq).
Qed.

(** Two numbers that do not compare equal are ordered one way or the
    other. *)
Lemma ltb_connected x y :
  (x =? x)%float = true -> (y =? y)%float = true ->
  (x =? y)%float = false -> (x <? y)%float = false -> (y <? x)%float = true.
Proof.
  intros Hx Hy Hne Hlt. destruct (y <? x)%float eqn:Hgt; [reflexivity|].
  assert ((x =? y)%float = true) by (apply FloatOrder.eqb_ltb; auto).
  congruence.
Qed.

(** ** A fresh book *)

Lemma best_ask_scan_empty_slots k best_price best_level :
  best_ask_scan (empty_slots k) best_price best_level = best_level.
Proof. induction k as [|k IH]; [reflexivity | exact IH]. Qed.

(** X1: right after construction, whatever the capacity, [get_best_bid],
    [get_best_ask], [get_mid_price] and [get_spread] all return empty. *)
Theorem fresh_book_queries_empty (MaxLevels : nat) :
  get_best_bid (new_LockFreeOrderBook MaxLevels) = None /\
  get_best_ask (new_LockFreeOrderBook MaxLevels) = None /\
  get_mid_price (new_LockFreeOrderBook MaxLevels) = None /\
  get_spread (new_LockFreeOrderBook MaxLevels) = None.
Proof.
  assert (Hb : get_best_bid (new_LockFreeOrderBook MaxLevels) = None)
    by apply (best_bid_scan_empty_slots MaxLevels).
  assert (Ha : get_best_ask (new_LockFreeOrderBook MaxLevels) = None)
    by apply (best_ask_scan_empty_slots MaxLevels).
  unfold get_mid_price, get_spread. by rewrite Hb, Ha.
Qed.

(** ** The slot an update writes *)

(** X2: an accepted update writes exactly one slot, the first one in index
    order that is empty or holds the price: every earlier slot is valid at
    another price, and every other slot is left as it was.  An empty slot
    receives price, size and timestamp and becomes valid; a slot holding the
    price is cleared when the size is 0 (its payload stays) and otherwise
    gets the new size and timestamp, its stored price staying. *)
Theorem update_writes_first_slot levels p s t :
  (update_level levels p s t).1 = true ->
  exists (i : nat) level,
    levels !! i = Some level /\
    (forall (j : nat) l, (j < i)%nat -> levels !! j = Some l ->
       valid l = true /\ (price l =? p)%float = false) /\
    (forall j : nat, j <> i ->
       (update_level levels p s t).2 !! j = levels !! j) /\
    ((valid level = false /\
      (update_level levels p s t).2 = <[i := mkPriceLevel p s t true]> levels) \/
     (valid level = true /\ (price level =? p)%float = true /\ s = 0 /\
      (update_level levels p s t).2 = <[i := store_valid false level]> levels) \/
     (valid level = true /\ (price level =? p)%float = true /\ s <> 0 /\
      (update_level levels p s t).2
      = <[i := mkPriceLevel (price level) s t true]> levels)).
Proof.
  induction levels as [|level levels IH]; [discriminate|].
  destruct (slot_cases level p) as [Hv|Hv Hp|Hv Hp].
  - rewrite update_level_cons_empty by done. intros _.
    exists 0%nat, level. split; [reflexivity|]. split; [intros; lia|].
    split; [by intros [|j] ?|]. by left.
  - rewrite update_level_cons_match by done. intros _.
    exists 0%nat, level. split; [reflexivity|]. split; [intros; lia|].
    split; [by intros [|j] ?|].
    destruct (Z.eqb_spec s 0) as [->|Hs].
    + right; left. auto.
    + right; right. rewrite Hv. auto.
  - rewrite update_level_cons_skip by done. simpl. intros Hok.
    destruct (IH Hok) as (i & slot & Hi & Hbefore & Hframe & Hcase).
    exists (S i), slot. split; [exact Hi|]. split; [|split].
    + intros [|j] l Hj Hl; simpl in Hl.
      * by injection Hl as <-.
      * apply (Hbefore j); [lia | done].
    + intros [|j] Hj; [reflexivity|]. simpl. apply Hframe. lia.
    + simpl. destruct Hcase as [(? & ->)|[(? & ? & ? & ->)|(? & ? & ? & ->)]];
        auto 10.
Qed.

Lemma update_writes_first_slot_witness :
  exists i : nat, forall j : nat, j <> i ->
    (update_level (bids_ usage_book) 99.5 700 9).2 !! j = bids_ usage_book !! j.
Proof.
  destruct (update_writes_first_slot (bids_ usage_book) 99.5 700 9 eq_refl)
    as (i & level & _ & _ & Hframe & _).
  exists i. exact Hframe.
Defined.

(** ** The two sides *)

Lemma step_lengths b o :
  length (bids_ (step b o).2) = length (bids_ b) /\
  length (asks_ (step b o).2) = length (asks_ b).
Proof.
  destruct o as [p s t|p s t]; simpl.
  - by rewrite update_bid_bids, update_bid_asks, update_level_length.
  - by rewrite update_ask_bids, update_ask_asks, update_level_length.
Qed.

Lemma run_bids_only os : forall b,
  forallb is_bid os = true -> asks_ (run b os) = asks_ b.
Proof.
  induction os as [|o os IH]; intros b Hos; [reflexivity|].
  simpl in Hos. apply andb_prop in Hos as [Ho Hos]. simpl.
  rewrite IH by exact Hos. destruct o; [apply update_bid_asks | discriminate].
Qed.

Lemma run_asks_only os : forall b,
  forallb (fun o => negb (is_bid o)) os = true -> bids_ (run b os) = bids_ b.
Proof.
  induction os as [|o os IH]; intros b Hos; [reflexivity|].
  simpl in Hos. apply andb_prop in Hos as [Ho Hos]. simpl.
  rewrite IH by exact Hos. destruct o; [discriminate | apply update_ask_bids].
Qed.

(** X3: no sequence of updates changes the number of slots of either side;
    bid updates leave the ask side, hence the result of [get_best_ask], as it
    was, and ask updates leave the bid side and [get_best_bid] as they
    were. *)
Theorem sides_fixed_and_independent (b : LockFreeOrderBook) (os : list op) :
  length (bids_ (run b os)) = length (bids_ b) /\
  length (asks_ (run b os)) = length (asks_ b) /\
  (forallb is_bid os = true ->
   asks_ (run b os) = asks_ b /\ get_best_ask (run b os) = get_best_ask b) /\
  (forallb (fun o => negb (is_bid o)) os = true ->
   bids_ (run b os) = bids_ b /\ get_best_bid (run b os) = get_best_bid b).
Proof.
  assert (Hlen : length (bids_ (run b os)) = length (bids_ b) /\
                 length (asks_ (run b os)) = length (asks_ b)).
  { revert b. induction os as [|o os IH]; intros b; [done|]. simpl.
    destruct (IH (step b o).2) as [-> ->]. apply step_lengths. }
  destruct Hlen as [Hb Ha]. repeat split; try done.
  - by apply run_bids_only.
  - unfold get_best_ask. by rewrite run_bids_only.
  - by apply run_asks_only.
  - unfold get_best_bid. by rewrite run_asks_only.
Qed.

Lemma sides_fixed_and_independent_witness :
  get_best_ask (run usage_book [UpdateBid 101 5 7; UpdateBid 100 0 8])
  = get_best_ask usage_book.
Proof.
  destruct (sides_fixed_and_independent usage_book
              [UpdateBid 101 5 7; UpdateBid 100 0 8]) as (_ & _ & H & _).
  apply H. reflexivity.
Defined.

Lemma best_ask_none_mid_spread b :
  get_best_ask b = None -> get_mid_price b = None /\ get_spread b = None.
Proof.
  unfold get_mid_price, get_spread. intros ->. by destruct (get_best_bid b).
Qed.

Lemma best_bid_none_mid_spread b :
  get_best_bid b = None -> get_mid_price b = None /\ get_spread b = None.
Proof. unfold get_mid_price, get_spread. by intros ->. Qed.

(** X4: a book that received updates on one side only since its construction
    has neither a mid price nor a spread, whatever was published on that
    side. *)
Theorem one_sided_book_has_no_mid_or_spread (MaxLevels : nat) (os : list op) :
  forallb is_bid os = true \/ forallb (fun o => negb (is_bid o)) os = true ->
  get_mid_price (run (new_LockFreeOrderBook MaxLevels) os) = None /\
  get_spread (run (new_LockFreeOrderBook MaxLevels) os) = None.
Proof.
  intros [Hos|Hos].
  - apply best_ask_none_mid_spread. unfold get_best_ask.
    rewrite run_bids_only by exact Hos.
    apply (best_ask_scan_empty_slots MaxLevels).
  - apply best_bid_none_mid_spread. unfold get_best_bid.
    rewrite run_asks_only by exact Hos.
    apply (best_bid_scan_empty_slots MaxLevels).
Qed.

Lemma one_sided_book_has_no_mid_or_spread_witness :
  get_mid_price (run (new_LockFreeOrderBook 4) [UpdateBid 50 10 1]) = None /\
  get_spread (run (new_LockFreeOrderBook 4) [UpdateBid 50 10 1]) = None.
Proof.
  apply (one_sided_book_has_no_mid_or_spread 4 [UpdateBid 50 10 1]).
  left. reflexivity.
Defined.

(** ** Ties: the first slot encountered wins *)

Section FirstBest.

Variable beats : float -> float -> bool.
Hypothesis beats_irrefl : forall x, beats x x = false.
Hypothesis beats_trans :
  forall x y z, beats x y = true -> beats y z = true -> beats x z = true.

(** When the scan ends on a slot [r] it took from [levels], the slots split
    around [r]; [b0] is the running extremum when [r] is reached: [r] beats
    it, no valid slot before [r] does, and no valid slot after [r] beats
    [r]. *)
Lemma best_scan_split levels : forall best_price best_level,
  (best_scan beats levels best_price best_level = best_level /\
   unbeaten beats best_price levels)
  \/ (exists pre r post b0,
        levels = pre ++ r :: post /\
        best_scan beats levels best_price best_level = Some r /\
        valid r = true /\ beats b0 (price r) = true /\
        unbeaten beats b0 pre /\
        (b0 = best_price \/ beats best_price b0 = true) /\
        unbeaten beats (price r) post).
Proof.
  unfold unbeaten.
  induction levels as [|level rest IH]; intros best_price best_level; simpl.
  { left. split; [reflexivity | constructor]. }
  destruct (valid level && beats best_price (price level)) eqn:Htake.
  - apply andb_prop in Htake as [Hv Hb]. right.
    destruct (IH (price level) (Some level))
      as [[-> Hun]|(pre & r & post & b0 & -> & -> & Hr & Hbr & Hpre & Hb0 & Hpost)].
    + exists [], level, rest, best_price. repeat split; auto.
    + exists (level :: pre), r, post, b0. repeat split; auto.
      * apply Forall_cons. split; [|done]. intros _.
        destruct Hb0 as [->|Hb0]; [apply beats_irrefl|].
        destruct (beats b0 (price level)) eqn:Hback; [|done].
        rewrite <- (beats_irrefl (price level)). symmetry.
        exact (beats_trans _ _ _ Hb0 Hback).
      * right. destruct Hb0 as [->|Hb0]; [done|].
        exact (beats_trans _ _ _ Hb Hb0).
  - assert (Hhead : valid level = true -> beats best_price (price level) = false).
    { intros Hv. by rewrite Hv in Htake. }
    destruct (IH best_price best_level)
      as [[-> Hun]|(pre & r & post & b0 & -> & -> & Hr & Hbr & Hpre & Hb0 & Hpost)].
    + left. split; [reflexivity|]. by apply Forall_cons.
    + right. exists (level :: pre), r, post, b0. repeat split; auto.
      apply Forall_cons. split; [|done]. intros Hv.
      destruct Hb0 as [->|Hb0]; [by apply Hhead|].
      destruct (beats b0 (price level)) eqn:Hback; [|done].
      rewrite <- (Hhead Hv). symmetry. exact (beats_trans _ _ _ Hb0 Hback).
Qed.

End FirstBest.

(** X5: among valid slots at the best price the first in index order wins.
    The slot [get_best_bid] returns sits at some index of [bids_], and no
    valid slot before it has a price as high as or equal to its own; the
    slot [get_best_ask] returns sits at some index of [asks_], and no valid
    slot before it has a price as low as or equal to its own. *)
Theorem best_of_side_first_wins (b : LockFreeOrderBook) :
  (forall r, get_best_bid b = Some r ->
     exists pre post, bids_ b = pre ++ r :: post /\
       forall level, level ∈ pre -> valid level = true ->
         (price r <=? price level)%float = false /\
         (price level =? price r)%float = false) /\
  (forall r, get_best_ask b = Some r ->
     exists pre post, asks_ b = pre ++ r :: post /\
       forall level, level ∈ pre -> valid level = true ->
         (price level <=? price r)%float = false /\
         (price level =? price r)%float = false).
Proof.
  unfold get_best_bid, get_best_ask.
  rewrite best_bid_scan_eq, best_ask_scan_eq. split; intros r Hr.
  - destruct (best_scan_split _ bid_beats_irrefl bid_beats_trans (bids_ b) 0%float None)
      as [[Hnone _]|(pre & r' & post & b0 & Hsplit & Hres & _ & Hbr & Hpre & _)];
      [congruence|].
    rewrite Hres in Hr. injection Hr as ->.
    exists pre, post. split; [exact Hsplit|]. intros level Hin Hv.
    unfold unbeaten in Hpre. rewrite Forall_forall in Hpre.
    specialize (Hpre level Hin Hv). unfold bid_beats in Hpre, Hbr.
    assert (Hle : (price r <=? price level)%float = false).
    { destruct (price r <=? price level)%float eqn:Hle; [|done].
      rewrite (ltb_leb_trans _ _ _ Hbr Hle) in Hpre. discriminate. }
    split; [exact Hle|].
    destruct (price level =? price r)%float eqn:Heq; [|done].
    rewrite (FloatOrder.ltb_eqb_r _ _ _ Heq), Hbr in Hpre. discriminate.
  - destruct (best_scan_split _ ask_beats_irrefl ask_beats_trans (asks_ b) DBL_MAX None)
      as [[Hnone _]|(pre & r' & post & b0 & Hsplit & Hres & _ & Hbr & Hpre & _)];
      [congruence|].
    rewrite Hres in Hr. injection Hr as ->.
    exists pre, post. split; [exact Hsplit|]. intros level Hin Hv.
    unfold unbeaten in Hpre. rewrite Forall_forall in Hpre.
    specialize (Hpre level Hin Hv). unfold ask_beats in Hpre, Hbr.
    assert (Hle : (price level <=? price r)%float = false).
    { destruct (price level <=? price r)%float eqn:Hle; [|done].
      rewrite (leb_ltb_trans _ _ _ Hle Hbr) in Hpre. discriminate. }
    split; [exact Hle|].
    destruct (price level =? price r)%float eqn:Heq; [|done].
    rewrite (FloatOrder.ltb_eqb_l _ _ _ Heq), Hbr in Hpre. discriminate.
Qed.

(** A side with two valid slots at the same price. *)
Lemma best_of_side_first_wins_witness :
  exists pre post,
    bids_ (run (new_LockFreeOrderBook 2)
               [UpdateBid 1 10 1; UpdateBid 2 10 2; UpdateBid 1 0 3; UpdateBid 2 20 4])
    = pre ++ mkPriceLevel 2 20 4 true :: post.
Proof.
  destruct (best_of_side_first_wins
              (run (new_LockFreeOrderBook 2)
                 [UpdateBid 1 10 1; UpdateBid 2 10 2; UpdateBid 1 0 3; UpdateBid 2 20 4]))
    as [H _].
  destruct (H (mkPriceLevel 2 20 4 true) eq_refl) as (pre & post & Hsplit & _).
  exists pre, post. exact Hsplit.
Defined.

(** ** Reading back what was published *)

Section ReadBack.

Variable beats : float -> float -> bool.
Hypothesis beats_eq_l :
  forall x y z, (x =? y)%float = true -> beats x z = beats y z.
Hypothesis beats_eq_r :
  forall x y z, (x =? y)%float = true -> beats z x = beats z y.
Hypothesis beats_num :
  forall x y, beats x y = true -> (x =? x)%float = true /\ (y =? y)%float = true.
Hypothesis beats_connected :
  forall x y, (x =? x)%float = true -> (y =? y)%float = true ->
    (x =? y)%float = false -> beats x y = false -> beats y x = true.

Lemma best_scan_unbeaten levels best_price best_level :
  unbeaten beats best_price levels ->
  best_scan beats levels best_price best_level = best_level.
Proof.
  unfold unbeaten. induction levels as [|level rest IH]; [reflexivity|].
  intros Hun. apply Forall_cons in Hun as [Hl Hun]. simpl.
  destruct (valid level); simpl; [rewrite Hl by reflexivity|]; by apply IH.
Qed.

(** When the published price beats the running extremum and no valid slot
    beats the published price, the scan ends on the slot the update wrote. *)
Lemma best_scan_after_update p s t levels : forall best_price best_level,
  s <> 0 -> beats best_price p = true ->
  (update_level levels p s t).1 = true ->
  unbeaten beats p (update_level levels p s t).2 ->
  exists r,
    best_scan beats (update_level levels p s t).2 best_price best_level = Some r /\
    valid r = true /\ (price r =? p)%float = true /\
    size r = s /\ timestamp_ns r = t.
Proof.
  intros best_price best_level Hs. revert best_price best_level.
  assert (Hs0 : (s =? 0) = false) by by apply Z.eqb_neq.
  unfold unbeaten.
  induction levels as [|level levels IH]; intros best_price best_level Hb;
    [discriminate|].
  destruct (beats_num _ _ Hb) as [_ Hpp].
  destruct (slot_cases level p) as [Hv|Hv Hp|Hv Hp].
  - rewrite update_level_cons_empty by done. simpl. intros _ Hun.
    apply Forall_cons in Hun as [_ Hun]. rewrite Hb.
    exists (mkPriceLevel p s t true). by rewrite best_scan_unbeaten.
  - rewrite update_level_cons_match by done. rewrite Hs0, Hv. simpl.
    intros _ Hun. apply Forall_cons in Hun as [_ Hun].
    rewrite (beats_eq_r _ _ _ Hp), Hb.
    exists (mkPriceLevel (price level) s t true). rewrite best_scan_unbeaten; [done|].
    eapply Forall_impl; [exact Hun|]. intros l Hl Hvl.
    rewrite (beats_eq_l _ _ _ Hp). by apply Hl.
  - rewrite update_level_cons_skip by done. simpl. intros Hok Hun.
    apply Forall_cons in Hun as [Hl Hun]. rewrite Hv. simpl.
    destruct (beats best_price (price level)) eqn:Hbl; [|by apply IH].
    apply IH; [|done..].
    destruct (beats_num _ _ Hbl) as [_ Hll].
    apply beats_connected; auto.
    by rewrite FloatOrder.eqb_sym.
Qed.

End ReadBack.

Lemma ask_beats_eq_l x y z :
  (x =? y)%float = true -> ask_beats x z = ask_beats y z.
Proof. apply FloatOrder.ltb_eqb_r. Qed.

Lemma ask_beats_eq_r x y z :
  (x =? y)%float = true -> ask_beats z x = ask_beats z y.
Proof. apply FloatOrder.ltb_eqb_l. Qed.

Lemma ask_beats_num x y :
  ask_beats x y = true -> (x =? x)%float = true /\ (y =? y)%float = true.
Proof. intros H. destruct (FloatOrder.ltb_not_nan _ _ H). auto. Qed.

Lemma ask_beats_connected x y :
  (x =? x)%float = true -> (y =? y)%float = true ->
  (x =? y)%float = false -> ask_beats x y = false -> ask_beats y x = true.
Proof.
  unfold ask_beats. intros Hx Hy Hne Hlt.
  apply ltb_connected; auto. by rewrite FloatOrder.eqb_sym.
Qed.

(** X6: if [update_bid(p, s, t)] with [p > 0.0] and [s != 0] is accepted and
    afterwards no valid bid slot is priced above [p], then [get_best_bid]
    returns the slot that call wrote: a snapshot whose price equals [p] and
    whose size and timestamp are [s] and [t], even when other valid slots
    hold the same price. *)
Theorem best_bid_reads_back_update (b : LockFreeOrderBook) (p : float) (s t : Z) :
  (0 <? p)%float = true -> s <> 0 ->
  (update_bid b p s t).1 = true ->
  (forall level, level ∈ bids_ (update_bid b p s t).2 ->
     valid level = true -> (p <? price level)%float = false) ->
  exists r,
    get_best_bid (update_bid b p s t).2 = Some r /\
    (price r =? p)%float = true /\ size r = s /\ timestamp_ns r = t.
Proof.
  intros Hp Hs Hok Htop. unfold get_best_bid.
  rewrite best_bid_scan_eq, update_bid_bids.
  rewrite update_bid_result in Hok. rewrite update_bid_bids in Htop.
  destruct (best_scan_after_update bid_beats FloatOrder.ltb_eqb_l
              FloatOrder.ltb_eqb_r FloatOrder.ltb_not_nan ltb_connected
              p s t (bids_ b) 0%float None Hs Hp Hok)
    as (r & Hr & _ & Hrest).
  - unfold unbeaten. by apply Forall_forall.
  - by exists r.
Qed.

Lemma best_bid_reads_back_update_witness :
  exists r,
    get_best_bid (update_bid usage_book 100 2000 6).2 = Some r /\
    (price r =? 100)%float = true /\ size r = 2000 /\ timestamp_ns r = 6.
Proof.
  apply (best_bid_reads_back_update usage_book 100 2000 6).
  - reflexivity.
  - discriminate.
  - reflexivity.
  - intros level Hin Hv. apply list_elem_of_In in Hin. simpl in Hin.
    destruct Hin as [<-|[<-|[<-|[<-|[]]]]]; reflexivity.
Defined.

(** X7: if [update_ask(p, s, t)] with [p < DBL_MAX] and [s != 0] is accepted
    and afterwards no valid ask slot is priced below [p], then
    [get_best_ask] returns the slot that call wrote: a snapshot whose price
    equals [p] and whose size and timestamp are [s] and [t]. *)
Theorem best_ask_reads_back_update (b : LockFreeOrderBook) (p : float) (s t : Z) :
  (p <? DBL_MAX)%float = true -> s <> 0 ->
  (update_ask b p s t).1 = true ->
  (forall level, level ∈ asks_ (update_ask b p s t).2 ->
     valid level = true -> (price level <? p)%float = false) ->
  exists r,
    get_best_ask (update_ask b p s t).2 = Some r /\
    (price r =? p)%float = true /\ size r = s /\ timestamp_ns r = t.
Proof.
  intros Hp Hs Hok Htop. unfold get_best_ask.
  rewrite best_ask_scan_eq, update_ask_asks.
  rewrite update_ask_result in Hok. rewrite update_ask_asks in Htop.
  destruct (best_scan_after_update ask_beats ask_beats_eq_l ask_beats_eq_r
              ask_beats_num ask_beats_connected
              p s t (asks_ b) DBL_MAX None Hs Hp Hok)
    as (r & Hr & _ & Hrest).
  - unfold unbeaten. by apply Forall_forall.
  - by exists r.
Qed.

Lemma best_ask_reads_back_update_witness :
  exists r,
    get_best_ask (update_ask usage_book 100.125 300 6).2 = Some r /\
    (price r =? 100.125)%float = true /\ size r = 300 /\ timestamp_ns r = 6.
Proof.
  apply (best_ask_reads_back_update usage_book 100.125 300 6).
  - reflexivity.
  - discriminate.
  - reflexivity.
  - intros level Hin Hv. apply list_elem_of_In in Hin. simpl in Hin.
    destruct Hin as [<-|[<-|[<-|[<-|[]]]]];
      first [reflexivity | discriminate Hv].
Defined.

(** ** Update then read, ask side *)

Lemma run_keeps_ask_level p os : forall b,
  Forall (fun o => touches_ask p o = false) os ->
  holds_price p (asks_ b) -> holds_price p (asks_ (run b os)).
Proof.
  unfold holds_price.
  induction os as [|o os IH]; intros b Hos Hb; [exact Hb|].
  apply Forall_cons in Hos as [Ho Hos]. simpl. apply IH; [exact Hos|].
  destruct o as [q s t|q s t]; simpl in *.
  - by rewrite update_bid_asks.
  - rewrite update_ask_asks. by apply update_level_keeps.
Qed.

(** X8: for every price [p < DBL_MAX] and size [s != 0], if
    [update_ask(p, s, t)] returns [true] and no later ask update has a price
    equal to [p], then every later [get_best_ask] returns a snapshot whose
    price is at most [p], and equal to [p] when no valid ask slot is priced
    below [p]; bid updates in between do not matter. *)
Theorem update_then_best_ask (b : LockFreeOrderBook) (p : float) (s t : Z)
    (os : list op) :
  (p <? DBL_MAX)%float = true -> s <> 0 ->
  (update_ask b p s t).1 = true ->
  Forall (fun o => touches_ask p o = false) os ->
  exists r,
    get_best_ask (run (update_ask b p s t).2 os) = Some r /\
    (price r <=? p)%float = true /\
    ((forall level, level ∈ asks_ (run (update_ask b p s t).2 os) ->
        valid level = true -> (price level <? p)%float = false) ->
     (price r =? p)%float = true).
Proof.
  intros Hp Hs Hok Hos.
  destruct (FloatOrder.ltb_not_nan _ _ Hp) as [Hpp _].
  assert (Hheld : holds_price p (asks_ (run (update_ask b p s t).2 os))).
  { apply run_keeps_ask_level; [exact Hos|].
    rewrite update_ask_asks. rewrite update_ask_result in Hok.
    eapply Exists_impl; [apply update_level_stores; [exact Hs | exact Hok]|].
    intros level (Hv & [->|Heq] & _); auto. }
  set (b' := run (update_ask b p s t).2 os) in *.
  apply Exists_exists in Hheld as (level & Hin & Hv & Heq).
  destruct (get_best_ask b') as [r|] eqn:Hbest.
  - exists r. split; [reflexivity|].
    apply get_best_ask_some in Hbest as (Hrin & Hrv & Hr0 & Hmin).
    destruct (FloatOrder.ltb_not_nan _ _ Hr0) as [Hrr _].
    assert (Hpr : (p <? price r)%float = false).
    { rewrite <- (FloatOrder.ltb_eqb_l _ _ _ Heq). by apply Hmin. }
    split.
    + apply FloatOrder.leb_ltb. auto.
    + intros Htop. apply FloatOrder.eqb_ltb. auto.
  - exfalso. rewrite get_best_ask_none in Hbest.
    specialize (Hbest level Hin Hv).
    rewrite (FloatOrder.ltb_eqb_l _ _ _ Heq) in Hbest. congruence.
Qed.

Lemma update_then_best_ask_witness :
  exists r,
    get_best_ask (run (update_ask (new_LockFreeOrderBook 4) 100 10 1).2
                      [UpdateAsk 100.5 5 2; UpdateBid 100 5 3; UpdateAsk 100.5 0 4])
      = Some r /\
    (price r <=? 100)%float = true.
Proof.
  destruct (update_then_best_ask (new_LockFreeOrderBook 4) 100 10 1
              [UpdateAsk 100.5 5 2; UpdateBid 100 5 3; UpdateAsk 100.5 0 4])
    as (r & Hr & Hle & _).
  - reflexivity.
  - discriminate.
  - reflexivity.
  - repeat constructor.
  - exists r. split; assumption.
Defined.

(** ** Sides without holes and duplicates *)

Lemma forallb_valid_prices (f : float -> bool) levels :
  forallb f (price <$> List.filter valid levels) = true <->
  Forall (fun level => valid level = true -> f (price level) = true) levels.
Proof.
  induction levels as [|level rest IH]; simpl.
  - split; [constructor | reflexivity].
  - rewrite Forall_cons. destruct (valid level) eqn:Hv; simpl.
    + rewrite andb_true_iff, IH. tauto.
    + rewrite IH. intuition discriminate.
Qed.

Lemma all_invalid_tidy levels :
  forallb (fun l => negb (valid l)) levels = true ->
  hole_free levels = true /\ List.filter valid levels = [].
Proof.
  induction levels as [|level rest IH]; [done|]. simpl.
  intros H. apply andb_prop in H as [Hl Hrest].
  apply negb_true_iff in Hl. rewrite Hl. by destruct (IH Hrest).
Qed.

Lemma tidy_cons_valid level rest :
  valid level = true ->
  tidy (level :: rest)
  = forallb (fun q => negb (price level =? q)%float)
            (price <$> List.filter valid rest) && tidy rest.
Proof.
  intros Hv. unfold tidy, duplicate_free. simpl. rewrite Hv. simpl.
  destruct (hole_free rest), (forallb _ _); reflexivity.
Qed.

Lemma tidy_cons_empty level rest :
  valid level = false ->
  tidy (level :: rest) = forallb (fun l => negb (valid l)) rest.
Proof.
  intros Hv. unfold tidy, duplicate_free. simpl. rewrite Hv.
  destruct (forallb _ rest) eqn:Hall; [|reflexivity].
  destruct (all_invalid_tidy rest Hall) as [_ ->]. reflexivity.
Qed.

(** The prices of the valid slots after an update are prices of valid slots
    before it, or the incoming price. *)
Lemma update_level_valid_prices (P : float -> Prop) levels p s t :
  P p ->
  Forall (fun level => valid level = true -> P (price level)) levels ->
  Forall (fun level => valid level = true -> P (price level))
         (update_level levels p s t).2.
Proof.
  intros HP. induction levels as [|level levels IH]; intros Hall; [constructor|].
  apply Forall_cons in Hall as [Hl Hall].
  destruct (slot_cases level p) as [Hv|Hv Hp|Hv Hp].
  - rewrite update_level_cons_empty by done. by apply Forall_cons.
  - rewrite update_level_cons_match by done. apply Forall_cons. split; [|done].
    destruct (s =? 0); simpl; [discriminate | done].
  - rewrite update_level_cons_skip by done. apply Forall_cons. split; [done|].
    by apply IH.
Qed.

Lemma update_level_tidy levels p s t :
  s <> 0 -> tidy levels = true -> tidy (update_level levels p s t).2 = true.
Proof.
  intros Hs. assert (Hs0 : (s =? 0) = false) by by apply Z.eqb_neq.
  induction levels as [|level levels IH]; [done|].
  destruct (slot_cases level p) as [Hv|Hv Hp|Hv Hp].
  - rewrite update_level_cons_empty, tidy_cons_empty by done. cbn [snd].
    intros Hall. rewrite tidy_cons_valid by done.
    unfold tidy, duplicate_free.
    destruct (all_invalid_tidy levels Hall) as [-> ->]. reflexivity.
  - rewrite update_level_cons_match, Hs0 by done. cbn [snd].
    rewrite !tidy_cons_valid by done. done.
  - rewrite update_level_cons_skip by done. simpl.
    rewrite !tidy_cons_valid by done.
    intros H. apply andb_prop in H as [Hh Ht]. rewrite IH by done.
    rewrite andb_true_r.
    apply (forallb_valid_prices (fun q => negb (price level =? q)%float)).
    apply (update_level_valid_prices
             (fun q => negb (price level =? q)%float = true)).
    + by rewrite Hp.
    + by apply (forallb_valid_prices (fun q => negb (price level =? q)%float)).
Qed.

Lemma empty_slots_tidy k : tidy (empty_slots k) = true.
Proof.
  assert (H : forallb (fun l => negb (valid l)) (empty_slots k) = true).
  { induction k; [reflexivity | exact IHk]. }
  unfold tidy, duplicate_free. by destruct (all_invalid_tidy _ H) as [-> ->].
Qed.

Lemma run_tidy os : forall b,
  Forall (fun o => op_size o <> 0) os ->
  tidy (bids_ b) = true -> tidy (asks_ b) = true ->
  tidy (bids_ (run b os)) = true /\ tidy (asks_ (run b os)) = true.
Proof.
  induction os as [|o os IH]; intros b Hos Hb Ha; [done|].
  apply Forall_cons in Hos as [Ho Hos]. simpl.
  apply IH; [done| |]; destruct o as [p s t|p s t]; simpl in *;
    rewrite ?update_bid_bids, ?update_bid_asks, ?update_ask_bids, ?update_ask_asks;
    try done; by apply update_level_tidy.
Qed.

Lemma tidy_valid_prefix levels : tidy levels = true -> valid_prefix levels.
Proof.
  unfold valid_prefix.
  induction levels as [|level rest IH]; intros Ht i j li lj Hij Hi Hj Hvj;
    [done|].
  destruct j as [|j]; [lia|]. simpl in Hj.
  destruct (valid level) eqn:Hv.
  - destruct i as [|i]; simpl in Hi; [by injection Hi as <-|].
    rewrite tidy_cons_valid in Ht by done. apply andb_prop in Ht as [_ Ht].
    apply (IH Ht i j li lj); [lia | done..].
  - rewrite tidy_cons_empty in Ht by done.
    rewrite forallb_forall in Ht.
    apply list_elem_of_lookup_2, list_elem_of_In, Ht in Hj.
    rewrite Hvj in Hj. discriminate.
Qed.

Lemma tidy_one_slot_per_price levels :
  tidy levels = true -> one_slot_per_price levels.
Proof.
  assert (Hlt : forall levels, tidy levels = true ->
            forall (i j : nat) li lj, (i < j)%nat ->
              levels !! i = Some li -> levels !! j = Some lj ->
              valid li = true -> valid lj = true ->
              (price li =? price lj)%float = false).
  { clear levels.
    induction levels as [|level rest IH]; intros Ht i j li lj Hij Hi Hj Hvi Hvj;
      [done|].
    destruct j as [|j]; [lia|]. simpl in Hj.
    destruct (valid level) eqn:Hv.
    - rewrite tidy_cons_valid in Ht by done. apply andb_prop in Ht as [Hh Ht].
      destruct i as [|i]; simpl in Hi.
      + injection Hi as <-.
        apply (forallb_valid_prices (fun q => negb (price level =? q)%float)) in Hh.
        rewrite Forall_forall in Hh.
        apply negb_true_iff, (Hh lj); [|done].
        by apply list_elem_of_lookup_2 in Hj.
      + apply (IH Ht i j li lj); [lia | done..].
    - rewrite tidy_cons_empty in Ht by done.
      rewrite forallb_forall in Ht.
      apply list_elem_of_lookup_2, list_elem_of_In, Ht in Hj.
      rewrite Hvj in Hj. discriminate. }
  intros Ht i j li lj Hij Hi Hj Hvi Hvj.
  destruct (Nat.lt_total i j) as [Hlt'|[->|Hgt]]; [eauto| done |].
  rewrite FloatOrder.eqb_sym. eauto.
Qed.

(** X9: as long as no update carries size 0, a book built from a fresh one
    keeps on each side its valid slots contiguous from index 0 and at most
    one valid slot per price. *)
Theorem no_withdrawal_keeps_sides_tidy (MaxLevels : nat) (os : list op) :
  Forall (fun o => op_size o <> 0) os ->
  valid_prefix (bids_ (run (new_LockFreeOrderBook MaxLevels) os)) /\
  one_slot_per_price (bids_ (run (new_LockFreeOrderBook MaxLevels) os)) /\
  valid_prefix (asks_ (run (new_LockFreeOrderBook MaxLevels) os)) /\
  one_slot_per_price (asks_ (run (new_LockFreeOrderBook MaxLevels) os)).
Proof.
  intros Hos.
  destruct (run_tidy os (new_LockFreeOrderBook MaxLevels) Hos
              (empty_slots_tidy MaxLevels) (empty_slots_tidy MaxLevels))
    as [Hb Ha].
  auto using tidy_valid_prefix, tidy_one_slot_per_price.
Qed.

Lemma no_withdrawal_keeps_sides_tidy_witness :
  one_slot_per_price
    (bids_ (run (new_LockFreeOrderBook 3)
                [UpdateBid 100 10 1; UpdateBid 99.5 5 2; UpdateBid 100 20 3;
                 UpdateAsk 101 7 4])).
Proof.
  apply (no_withdrawal_keeps_sides_tidy 3
           [UpdateBid 100 10 1; UpdateBid 99.5 5 2; UpdateBid 100 20 3;
            UpdateAsk 101 7 4]).
  repeat constructor; discriminate.
Defined.

(** ** Withdrawing a level that is present *)

Lemma valid_prefix_tail level rest :
  valid_prefix (level :: rest) -> valid_prefix rest.
Proof.
  intros H i j li lj Hij Hi Hj. apply (H (S i) (S j)); [lia | done..].
Qed.

Lemma one_slot_per_price_tail level rest :
  one_slot_per_price (level :: rest) -> one_slot_per_price rest.
Proof.
  intros H i j li lj Hij Hi Hj. apply (H (S i) (S j)); [lia | done..].
Qed.

Lemma holds_price_cons p level rest :
  holds_price p (level :: rest) <->
  (valid level = true /\ (price level =? p)%float = true) \/ holds_price p rest.
Proof. unfold holds_price. apply Exists_cons. Qed.

(** On a side without holes and duplicates, a size-0 update at a price that
    is held is accepted and leaves no valid slot at that price. *)
Lemma update_level_withdraws levels p t :
  valid_prefix levels -> one_slot_per_price levels -> holds_price p levels ->
  (update_level levels p 0 t).1 = true /\
  ~ holds_price p (update_level levels p 0 t).2.
Proof.
  induction levels as [|level rest IH]; intros Hpre Hone Hheld.
  { by apply Exists_nil in Hheld. }
  destruct (slot_cases level p) as [Hv|Hv Hp|Hv Hp].
  - exfalso. apply holds_price_cons in Hheld as [[? _]|Hheld]; [congruence|].
    apply Exists_exists in Hheld as (l & Hin & Hvl & _).
    apply list_elem_of_lookup_1 in Hin as [j Hj].
    specialize (Hpre 0%nat (S j) level l). simpl in Hpre.
    rewrite Hpre in Hv; [discriminate | lia | done..].
  - rewrite update_level_cons_match by done. simpl. split; [reflexivity|].
    rewrite holds_price_cons. intros [[? _]|Hheld']; [discriminate|].
    apply Exists_exists in Hheld' as (l & Hin & Hvl & Hlp).
    apply list_elem_of_lookup_1 in Hin as [j Hj].
    specialize (Hone 0%nat (S j) level l). simpl in Hone.
    rewrite FloatOrder.eqb_sym in Hlp.
    rewrite (FloatOrder.eqb_trans _ _ _ Hp Hlp) in Hone.
    discriminate Hone; [lia | done..].
  - rewrite update_level_cons_skip by done. simpl.
    apply holds_price_cons in Hheld as [[_ ?]|Hheld]; [congruence|].
    destruct (IH (valid_prefix_tail _ _ Hpre) (one_slot_per_price_tail _ _ Hone) Hheld)
      as [Hok Hgone].
    split; [exact Hok|]. rewrite holds_price_cons.
    intros [[_ ?]|?]; [congruence | contradiction].
Qed.

(** An update at another price does not bring back a price that is not
    held. *)
Lemma update_level_keeps_absent levels p q s t :
  (q =? p)%float = false ->
  ~ holds_price p levels -> ~ holds_price p (update_level levels q s t).2.
Proof.
  intros Hqp. induction levels as [|level rest IH]; [done|].
  rewrite holds_price_cons. intros Habs.
  destruct (slot_cases level q) as [Hv|Hv Hq|Hv Hq].
  - rewrite update_level_cons_empty by done. simpl. rewrite holds_price_cons.
    simpl. intros [[_ ?]|?]; [congruence | tauto].
  - rewrite update_level_cons_match by done. simpl. rewrite holds_price_cons.
    destruct (s =? 0); simpl; intros [[? ?]|?]; try tauto; discriminate.
  - rewrite update_level_cons_skip by done. simpl. rewrite holds_price_cons.
    intros [?|?]; [tauto|]. apply IH; tauto.
Qed.

Lemma run_keeps_absent p os : forall b,
  Forall (fun o => touches p o = false) os ->
  ~ holds_price p (bids_ b) -> ~ holds_price p (bids_ (run b os)).
Proof.
  induction os as [|o os IH]; intros b Hos Hb; [exact Hb|].
  apply Forall_cons in Hos as [Ho Hos]. simpl. apply IH; [exact Hos|].
  destruct o as [q s t|q s t]; simpl in *.
  - rewrite update_bid_bids. by apply update_level_keeps_absent.
  - by rewrite update_ask_bids.
Qed.

(** X10: on a bid side whose valid slots are contiguous from index 0 and
    hold pairwise different prices, [update_bid(p, 0, t)] for a price held by
    a valid slot returns [true], and from then on, as long as no bid update
    has a price equal to [p], no [get_best_bid] returns a snapshot whose
    price equals [p]. *)
Theorem withdrawal_removes_present_level (b : LockFreeOrderBook) (p : float)
    (t : Z) (os : list op) :
  valid_prefix (bids_ b) -> one_slot_per_price (bids_ b) ->
  holds_price p (bids_ b) ->
  Forall (fun o => touches p o = false) os ->
  (update_bid b p 0 t).1 = true /\
  forall r, get_best_bid (run (update_bid b p 0 t).2 os) = Some r ->
            (price r =? p)%float = false.
Proof.
  intros Hpre Hone Hheld Hos.
  destruct (update_level_withdraws (bids_ b) p t Hpre Hone Hheld) as [Hok Hgone].
  split; [by rewrite update_bid_result|].
  intros r Hr. apply get_best_bid_some in Hr as (Hin & Hv & _).
  destruct (price r =? p)%float eqn:Heq; [|reflexivity].
  exfalso. apply (run_keeps_absent p os (update_bid b p 0 t).2 Hos).
  - by rewrite update_bid_bids.
  - apply Exists_exists. by exists r.
Qed.

Lemma withdrawal_removes_present_level_witness :
  (update_bid usage_book 100 0 5).1 = true /\
  (price (mkPriceLevel 99.5 500 2 true) =? 100)%float = false.
Proof.
  destruct (withdrawal_removes_present_level usage_book 100 5
              [UpdateBid 99 40 6; UpdateAsk 100 3 7]) as [Hok Hgone].
  - by apply tidy_valid_prefix.
  - by apply tidy_one_slot_per_price.
  - apply Exists_cons_hd. split; reflexivity.
  - repeat constructor.
  - split; [exact Hok|]. apply Hgone. reflexivity.
Defined.

(** ** Where a snapshot comes from *)

(** A valid slot after an update was valid before it, unchanged, or carries
    the size and timestamp of the update at a price equal to the update's. *)
Lemma update_level_valid_origin levels p s t l :
  l ∈ (update_level levels p s t).2 -> valid l = true ->
  (l ∈ levels) \/
  (size l = s /\ timestamp_ns l = t /\
   (price l = p \/ (price l =? p)%float = true)).
Proof.
  induction levels as [|level rest IH]; [by intros ?%elem_of_nil|].
  destruct (slot_cases level p) as [Hv|Hv Hp|Hv Hp].
  - rewrite update_level_cons_empty by done. simpl.
    intros [->|Hin]%elem_of_cons _; [right; simpl; auto|].
    left. by apply elem_of_cons; right.
  - rewrite update_level_cons_match by done. simpl.
    intros [->|Hin]%elem_of_cons Hvl.
    + destruct (s =? 0); simpl in *; [discriminate|]. right. auto.
    + left. by apply elem_of_cons; right.
  - rewrite update_level_cons_skip by done. simpl.
    intros [->|Hin]%elem_of_cons Hvl.
    + left. by apply elem_of_cons; left.
    + destruct (IH Hin Hvl) as [?|?]; [|by right].
      left. by apply elem_of_cons; right.
Qed.

Lemma run_valid_origin os : forall b l,
  l ∈ bids_ (run b os) -> valid l = true ->
  (l ∈ bids_ b) \/
  (exists p s t, UpdateBid p s t ∈ os /\ size l = s /\ timestamp_ns l = t /\
                 (price l = p \/ (price l =? p)%float = true)).
Proof.
  induction os as [|o os IH]; intros b l Hin Hv; [by left|].
  simpl in Hin. destruct (IH _ _ Hin Hv) as [Hprev|(p & s & t & Ho & Hrest)].
  - destruct o as [p s t|p s t]; simpl in Hprev.
    + rewrite update_bid_bids in Hprev.
      destruct (update_level_valid_origin _ _ _ _ _ Hprev Hv) as [?|?];
        [by left|].
      right. exists p, s, t. split; [apply elem_of_cons; by left | done].
    + rewrite update_ask_bids in Hprev. by left.
  - right. exists p, s, t. split; [apply elem_of_cons; by right | done].
Qed.

Lemma run_valid_origin_ask os : forall b l,
  l ∈ asks_ (run b os) -> valid l = true ->
  (l ∈ asks_ b) \/
  (exists p s t, UpdateAsk p s t ∈ os /\ size l = s /\ timestamp_ns l = t /\
                 (price l = p \/ (price l =? p)%float = true)).
Proof.
  induction os as [|o os IH]; intros b l Hin Hv; [by left|].
  simpl in Hin. destruct (IH _ _ Hin Hv) as [Hprev|(p & s & t & Ho & Hrest)].
  - destruct o as [p s t|p s t]; simpl in Hprev.
    + rewrite update_bid_asks in Hprev. by left.
    + rewrite update_ask_asks in Hprev.
      destruct (update_level_valid_origin _ _ _ _ _ Hprev Hv) as [?|?];
        [by left|].
      right. exists p, s, t. split; [apply elem_of_cons; by left | done].
  - right. exists p, s, t. split; [apply elem_of_cons; by right | done].
Qed.

Lemma empty_slots_no_valid k l : l ∈ empty_slots k -> valid l = true -> False.
Proof.
  intros Hin Hv. pose proof (empty_slots_invalid k) as H.
  rewrite Forall_forall in H. rewrite (H l Hin) in Hv. discriminate.
Qed.

(** X11: every snapshot returned on a book built from a fresh one comes from
    an update of that side: some [update_bid(p, s, t)] of the sequence has a
    price equal to the snapshot's and exactly its size and timestamp, and
    likewise for [get_best_ask] and the [update_ask] calls. *)
Theorem snapshot_comes_from_an_update (MaxLevels : nat) (os : list op) :
  (forall r, get_best_bid (run (new_LockFreeOrderBook MaxLevels) os) = Some r ->
     exists p s t, UpdateBid p s t ∈ os /\
       (price r =? p)%float = true /\ size r = s /\ timestamp_ns r = t) /\
  (forall r, get_best_ask (run (new_LockFreeOrderBook MaxLevels) os) = Some r ->
     exists p s t, UpdateAsk p s t ∈ os /\
       (price r =? p)%float = true /\ size r = s /\ timestamp_ns r = t).
Proof.
  split; intros r Hr.
  - apply get_best_bid_some in Hr as (Hin & Hv & Hpos & _).
    destruct (FloatOrder.ltb_not_nan _ _ Hpos) as [_ Hrr].
    destruct (run_valid_origin os _ r Hin Hv)
      as [Hfresh|(p & s & t & Ho & Hs & Ht & Hp)].
    + destruct (empty_slots_no_valid MaxLevels r Hfresh Hv).
    + exists p, s, t. repeat split; auto.
      destruct Hp as [<-|Hp]; done.
  - apply get_best_ask_some in Hr as (Hin & Hv & Hmax & _).
    destruct (FloatOrder.ltb_not_nan _ _ Hmax) as [Hrr _].
    destruct (run_valid_origin_ask os _ r Hin Hv)
      as [Hfresh|(p & s & t & Ho & Hs & Ht & Hp)].
    + destruct (empty_slots_no_valid MaxLevels r Hfresh Hv).
    + exists p, s, t. repeat split; auto.
      destruct Hp as [<-|Hp]; done.
Qed.

Lemma snapshot_comes_from_an_update_witness :
  exists p s t,
    UpdateBid p s t ∈ [UpdateBid 100 1000 1; UpdateBid 99.5 500 2;
                       UpdateAsk 100.25 800 3; UpdateAsk 100.5 1200 4] /\
    (price (mkPriceLevel 100 1000 1 true) =? p)%float = true /\
    size (mkPriceLevel 100 1000 1 true) = s /\
    timestamp_ns (mkPriceLevel 100 1000 1 true) = t.
Proof.
  destruct (snapshot_comes_from_an_update 4
              [UpdateBid 100 1000 1; UpdateBid 99.5 500 2;
               UpdateAsk 100.25 800 3; UpdateAsk 100.5 1200 4]) as [H _].
  apply (H (mkPriceLevel 100 1000 1 true)). reflexivity.
Defined.

(** ** Prices that are not numbers *)

Lemma update_level_keeps_nan_level levels p s t l :
  l ∈ levels -> valid l = true -> (price l =? price l)%float = false ->
  l ∈ (update_level levels p s t).2.
Proof.
  intros Hin Hv Hnan. induction levels as [|level rest IH];
    [by apply elem_of_nil in Hin|].
  apply elem_of_cons in Hin.
  destruct (slot_cases level p) as [Hvl|Hvl Hp|Hvl Hp].
  - rewrite update_level_cons_empty by done. simpl.
    destruct Hin as [->|Hin]; [congruence|]. by apply elem_of_cons; right.
  - rewrite update_level_cons_match by done. simpl.
    destruct Hin as [->|Hin]; [|by apply elem_of_cons; right].
    destruct (FloatOrder.eqb_not_nan _ _ Hp). congruence.
  - rewrite update_level_cons_skip by done. simpl.
    destruct Hin as [->|Hin]; apply elem_of_cons; [by left | right; auto].
Qed.

(** X12: a level published at a NaN price can be neither overwritten nor
    withdrawn: a valid slot whose price is NaN stays in its side, unchanged
    and valid, through every sequence of updates, while neither query ever
    returns it. *)
Theorem nan_level_is_permanent (b : LockFreeOrderBook) (os : list op)
    (l : PriceLevel) :
  valid l = true -> (price l =? price l)%float = false ->
  (l ∈ bids_ b -> l ∈ bids_ (run b os)) /\
  (l ∈ asks_ b -> l ∈ asks_ (run b os)) /\
  get_best_bid (run b os) <> Some l /\
  get_best_ask (run b os) <> Some l.
Proof.
  intros Hv Hnan. split; [|split; [|split]].
  - revert b. induction os as [|o os IH]; intros b Hin; [exact Hin|].
    simpl. apply IH. destruct o as [p s t|p s t]; simpl.
    + rewrite update_bid_bids. by apply update_level_keeps_nan_level.
    + by rewrite update_ask_bids.
  - revert b. induction os as [|o os IH]; intros b Hin; [exact Hin|].
    simpl. apply IH. destruct o as [p s t|p s t]; simpl.
    + by rewrite update_bid_asks.
    + rewrite update_ask_asks. by apply update_level_keeps_nan_level.
  - intros Hr. apply get_best_bid_some in Hr as (_ & _ & Hpos & _).
    destruct (FloatOrder.ltb_not_nan _ _ Hpos). congruence.
  - intros Hr. apply get_best_ask_some in Hr as (_ & _ & Hmax & _).
    destruct (FloatOrder.ltb_not_nan _ _ Hmax). congruence.
Qed.

Lemma nan_level_is_permanent_witness :
  mkPriceLevel nan 10 1 true
  ∈ bids_ (run (run (new_LockFreeOrderBook 2) [UpdateBid nan 10 1])
               [UpdateBid nan 0 2; UpdateBid nan 7 3]).
Proof.
  destruct (nan_level_is_permanent
              (run (new_LockFreeOrderBook 2) [UpdateBid nan 10 1])
              [UpdateBid nan 0 2; UpdateBid nan 7 3]
              (mkPriceLevel nan 10 1 true)) as [H _].
  - reflexivity.
  - reflexivity.
  - apply H. apply elem_of_cons. by left.
Defined.

(** ** Capacity after a withdrawal *)

Lemma update_level_withdraw_frees levels p t :
  finds_level levels p = true ->
  (update_level levels p 0 t).1 = true /\
  Exists (fun level => valid level = false) (update_level levels p 0 t).2.
Proof.
  induction levels as [|level rest IH]; [discriminate|].
  destruct (slot_cases level p) as [Hv|Hv Hp|Hv Hp]; simpl; rewrite Hv; simpl.
  - discriminate.
  - rewrite Hp. intros _.
    change (match try_acquire level p 0 t with
            | Some level' => (true, level' :: rest)
            | None => _ end) with (update_level (level :: rest) p 0 t).
    rewrite update_level_cons_match by done. simpl.
    split; [reflexivity|]. by apply Exists_cons_hd.
  - rewrite Hp. intros Hf.
    change (match try_acquire level p 0 t with
            | Some level' => (true, level' :: rest)
            | None => _ end) with (update_level (level :: rest) p 0 t).
    rewrite update_level_cons_skip by done. simpl.
    destruct (IH Hf) as [Hok Hex]. split; [exact Hok|]. by apply Exists_cons_tl.
Qed.

(** X13: a withdrawal gives its slot back.  When the scan of
    [update_bid(p, 0, t)] reaches a valid slot holding [p] before any empty
    slot, the call returns [true] and the next update on that side is
    accepted whatever its price, even if the side was full; the same holds
    for [update_ask]. *)
Theorem withdrawal_frees_a_slot (b : LockFreeOrderBook) (p q : float)
    (t s' t' : Z) :
  (finds_level (bids_ b) p = true ->
   (update_bid b p 0 t).1 = true /\
   (update_bid (update_bid b p 0 t).2 q s' t').1 = true) /\
  (finds_level (asks_ b) p = true ->
   (update_ask b p 0 t).1 = true /\
   (update_ask (update_ask b p 0 t).2 q s' t').1 = true).
Proof.
  split; intros Hf;
    destruct (update_level_withdraw_frees _ _ t Hf) as [Hok Hex].
  - rewrite !update_bid_result, update_bid_bids. split; [exact Hok|].
    apply update_level_true_iff. eapply Exists_impl; [exact Hex|]. auto.
  - rewrite !update_ask_result, update_ask_asks. split; [exact Hok|].
    apply update_level_true_iff. eapply Exists_impl; [exact Hex|]. auto.
Qed.

Lemma withdrawal_frees_a_slot_witness :
  (update_bid full_book_1 99 5 3).1 = false /\
  (update_bid (update_bid full_book_1 100 0 3).2 99 5 4).1 = true.
Proof.
  split; [reflexivity|].
  destruct (withdrawal_frees_a_slot full_book_1 100 99 3 5 4) as [H _].
  apply H. reflexivity.
Defined.
